(** * Locale detection and locale redirects of the OpenNext routing layer

    Shallow embedding of
    [packages/open-next/src/core/routing/i18n/index.ts]:
    [isLocalizedPath], [getLocaleFromCookie], [detectDomainLocale],
    [detectLocale], [localizePath] and [handleLocaleRedirect].

    JavaScript strings are modelled as [string]; [toLowerCase] is the
    ASCII fragment of [String.prototype.toLowerCase] (host names and locale
    tags are ASCII).  [undefined] is [None].  A JavaScript exception is the
    [Throw] outcome of the [completion] monad.

    The functions of [Section Routing] compute from the answers of the
    imported collaborators; [Module Faulting] has the same functions with
    every collaborator call throwing where the collaborator does. *)

From Stdlib Require Import Ascii String List Bool NArith ZArith.
From stdpp Require Import base option list strings gmap.

Local Open Scope string_scope.
Local Open Scope list_scope.

(** ** The JavaScript fragment the module relies on *)

Module JS.

Inductive error : Type :=
| TypeError (msg : string)
| Error (msg : string).

(** Outcome of evaluating an expression: a value or a thrown error. *)
Inductive completion (A : Type) : Type :=
| Normal (a : A)
| Throw (e : error).
Arguments Normal {A} a.
Arguments Throw {A} e.

#[export] Instance completion_ret : MRet completion := @Normal.

#[export] Instance completion_bind : MBind completion :=
  fun A B f m => match m with
                 | Normal a => f a
                 | Throw e => Throw e
                 end.

(** [c.toLowerCase()] on one ASCII character. *)
Definition lower_ascii (c : ascii) : ascii :=
  let n := N_of_ascii c in
  if ((65 <=? n) && (n <=? 90))%N then ascii_of_N (n + 32) else c.

(** [s.toLowerCase()] *)
Fixpoint toLowerCase (s : string) : string :=
  match s with
  | EmptyString => EmptyString
  | String c s' => String (lower_ascii c) (toLowerCase s')
  end.

(** [s.split(sep)] for a one-character separator: the pieces between the
    occurrences of [sep], in order; never the empty array. *)
Fixpoint split (sep : ascii) (s : string) : list string :=
  match s with
  | EmptyString => [EmptyString]
  | String c s' =>
      if Ascii.eqb c sep then EmptyString :: split sep s'
      else match split sep s' with
           | [] => [String c EmptyString]
           | piece :: pieces => String c piece :: pieces
           end
  end.

(** [s.split(sep, limit)]: at most [limit] pieces. *)
Definition split_limit (sep : ascii) (limit : nat) (s : string) : list string :=
  take limit (split sep s).

(** [x.toLowerCase()] where [x] is the result of an array index: reading
    a property of [undefined] throws. *)
Definition toLowerCase_of (x : option string) : completion string :=
  match x with
  | Some s => Normal (toLowerCase s)
  | None =>
      Throw (TypeError "Cannot read properties of undefined (reading 'toLowerCase')")
  end.

(** [arr.includes(x)] on an array of strings. *)
Definition includes (arr : list string) (x : string) : bool :=
  existsb (String.eqb x) arr.

(** [a ?? b] *)
Definition nullish {A : Type} (a : option A) (b : A) : A :=
  match a with
  | Some v => v
  | None => b
  end.

(** [a ?? b] where [b] may itself be [undefined]. *)
Definition nullish_opt {A : Type} (a b : option A) : option A :=
  match a with
  | Some v => Some v
  | None => b
  end.

(** Truthiness of an optional boolean field. *)
Definition truthy (b : option bool) : bool :=
  match b with
  | Some true => true
  | _ => false
  end.

(** [`${x}`] for [x : string | undefined]. *)
Definition interpolate (x : option string) : string :=
  match x with
  | Some s => s
  | None => "undefined"
  end.

(** [a === b] with [a : string | undefined] and [b : string]. *)
Definition strict_eq (a : option string) (b : string) : bool :=
  match a with
  | Some s => String.eqb s b
  | None => false
  end.

End JS.

Import JS.

(** ** Data model *)

Module DomainLocale.
Record t : Type := mk {
  domain : string;
  defaultLocale : string;
  locales : option (list string);
  http : option bool
}.
End DomainLocale.

Module i18nConfig.
Record t : Type := mk {
  locales : list string;
  defaultLocale : string;
  localeDetection : option bool;
  domains : option (list DomainLocale.t)
}.
End i18nConfig.

(** The part of the process-wide Next configuration read by this module. *)
Module NextConfig.
Record t : Type := mk {
  i18n : option i18nConfig.t
}.
End NextConfig.

(** The fields of an [InternalEvent] this module reads. *)
Module InternalEvent.
Record t : Type := mk {
  url : string;
  rawPath : string;
  headers : gmap string string;
  cookies : gmap string string
}.

End InternalEvent.

(** Collaborators imported from other modules of the package:
    [emptyReadableStream] (utils/stream.js), [acceptLanguage]
    (./accept-header) and [constructNextUrl] (../util.js).  The fields are
    the answers of the calls that return; where the calls throw is
    [CollaboratorFaults], below. *)
Class Collaborators : Type := {
  ReadableStream : Type;
  emptyReadableStream : ReadableStream;
  acceptLanguage : option string -> list string -> option string;
  constructNextUrl : string -> string -> string
}.

Module InternalResult.
Record t `{Collaborators} : Type := mk {
  type : string;
  statusCode : Z;
  headers : gmap string string;
  body : ReadableStream;
  isBase64Encoded : bool
}.
End InternalResult.

(** ** The routing functions *)

Section Routing.
Context `{Collaborators}.

(** The imported [NextConfig] object. *)
Variable NextConfig : NextConfig.t.

Definition isLocalizedPath (path : string) : completion bool :=
  match NextConfig.i18n NextConfig with
  | None => mret false
  | Some i18n =>
      segment ← toLowerCase_of (split "/" path !! 1%nat);
      mret (includes (i18nConfig.locales i18n) segment)
  end.

Definition getLocaleFromCookie (cookies : gmap string string) : option string :=
  let i18n := NextConfig.i18n NextConfig in
  let nextLocale := toLowerCase <$> cookies !! "NEXT_LOCALE" in
  match nextLocale with
  | Some nextLocale =>
      if String.eqb nextLocale "" then None
      else
        match i18n with
        | Some i18n =>
            find (fun locale => String.eqb nextLocale (toLowerCase locale))
                 (i18nConfig.locales i18n)
        | None => None
        end
  | None => None
  end.

(** The condition of the [if] in the loop of [detectDomainLocale]. *)
Definition domain_matches (hostname lowercasedLocale : option string)
    (domainHostname : string) (domain : DomainLocale.t) : bool :=
  strict_eq hostname domainHostname
  || strict_eq lowercasedLocale (toLowerCase (DomainLocale.defaultLocale domain))
  || match DomainLocale.locales domain with
     | Some locales =>
         existsb (fun locale => strict_eq lowercasedLocale (toLowerCase locale)) locales
     | None => false
     end.

(** The [for (const domain of domains)] loop with its early [return]. *)
Fixpoint detectDomainLocale_loop (hostname lowercasedLocale : option string)
    (domains : list DomainLocale.t) : completion (option DomainLocale.t) :=
  match domains with
  | [] => mret None
  | domain :: rest =>
      domainHostname ←
        toLowerCase_of (split_limit ":" 1 (DomainLocale.domain domain) !! 0%nat);
      if domain_matches hostname lowercasedLocale domainHostname domain
      then mret (Some domain)
      else detectDomainLocale_loop hostname lowercasedLocale rest
  end.

Definition detectDomainLocale (hostname detectedLocale : option string)
    : completion (option DomainLocale.t) :=
  let i18n := NextConfig.i18n NextConfig in
  match i18n ≫= i18nConfig.domains with
  | None => mret None
  | Some domains =>
      let lowercasedLocale := toLowerCase <$> detectedLocale in
      detectDomainLocale_loop hostname lowercasedLocale domains
  end.

(** The [debug] call only logs and is left out. *)
Definition detectLocale (internalEvent : InternalEvent.t) (i18n : i18nConfig.t)
    : completion string :=
  domainLocale ←
    detectDomainLocale (InternalEvent.headers internalEvent !! "host") None;
  match i18nConfig.localeDetection i18n with
  | Some false =>
      mret (nullish (DomainLocale.defaultLocale <$> domainLocale)
                    (i18nConfig.defaultLocale i18n))
  | _ =>
      let cookiesLocale := getLocaleFromCookie (InternalEvent.cookies internalEvent) in
      let preferredLocale :=
        acceptLanguage (InternalEvent.headers internalEvent !! "accept-language")
                       (i18nConfig.locales i18n) in
      mret (nullish
              (nullish_opt
                 (nullish_opt (DomainLocale.defaultLocale <$> domainLocale)
                              cookiesLocale)
                 preferredLocale)
              (i18nConfig.defaultLocale i18n))
  end.

Definition localizePath (internalEvent : InternalEvent.t) : completion string :=
  match NextConfig.i18n NextConfig with
  | None => mret (InternalEvent.rawPath internalEvent)
  | Some i18n =>
      localized ← isLocalizedPath (InternalEvent.rawPath internalEvent);
      if localized : bool then mret (InternalEvent.rawPath internalEvent)
      else
        detectedLocale ← detectLocale internalEvent i18n;
        mret ("/" +:+ detectedLocale +:+ InternalEvent.rawPath internalEvent)
  end.

(** [false | InternalResult]: [None] is [false]. *)
Definition handleLocaleRedirect (internalEvent : InternalEvent.t)
    : completion (option InternalResult.t) :=
  match NextConfig.i18n NextConfig with
  | None => mret None
  | Some i18n =>
      match i18nConfig.localeDetection i18n with
      | Some false => mret None
      | _ =>
          if negb (String.eqb (InternalEvent.rawPath internalEvent) "/")
          then mret None
          else
            let preferredLocale :=
              acceptLanguage
                (InternalEvent.headers internalEvent !! "accept-language")
                (i18nConfig.locales i18n) in
            detectedLocale ← detectLocale internalEvent i18n;
            domainLocale ←
              detectDomainLocale (InternalEvent.headers internalEvent !! "host") None;
            preferredDomain ← detectDomainLocale None preferredLocale;
            let domainRedirect :=
              match domainLocale, preferredDomain with
              | Some domainLocale, Some preferredDomain =>
                  let isPDomain :=
                    String.eqb (DomainLocale.domain preferredDomain)
                               (DomainLocale.domain domainLocale) in
                  let isPLocale :=
                    strict_eq preferredLocale
                              (DomainLocale.defaultLocale preferredDomain) in
                  if negb isPDomain || negb isPLocale then
                    let scheme :=
                      "http" +:+
                      (if truthy (DomainLocale.http preferredDomain) then "" else "s") in
                    let rlocale := if isPLocale then Some "" else preferredLocale in
                    Some {| InternalResult.type := "core";
                            InternalResult.statusCode := 307;
                            InternalResult.headers :=
                              {[ "Location" :=
                                   scheme +:+ "://" +:+
                                   DomainLocale.domain preferredDomain +:+ "/" +:+
                                   interpolate rlocale ]};
                            InternalResult.body := emptyReadableStream;
                            InternalResult.isBase64Encoded := false |}
                  else None
              | _, _ => None
              end in
            match domainRedirect with
            | Some redirect => mret (Some redirect)
            | None =>
                let defaultLocale :=
                  nullish (DomainLocale.defaultLocale <$> domainLocale)
                          (i18nConfig.defaultLocale i18n) in
                if negb (String.eqb (toLowerCase detectedLocale)
                                    (toLowerCase defaultLocale))
                then
                  mret (Some
                    {| InternalResult.type := "core";
                       InternalResult.statusCode := 307;
                       InternalResult.headers :=
                         {[ "Location" :=
                              constructNextUrl (InternalEvent.url internalEvent)
                                               ("/" +:+ detectedLocale) ]};
                       InternalResult.body := emptyReadableStream;
                       InternalResult.isBase64Encoded := false |})
                else mret None
            end
      end
  end.

End Routing.

Arguments InternalResult.t : clear implicits.

(** ** Reference definitions, following the specification's wording *)

(** A domain's host "with any trailing port stripped": everything before
    the first colon. *)
Fixpoint strip_port (host : string) : string :=
  match host with
  | EmptyString => EmptyString
  | String c rest => if Ascii.eqb c ":" then EmptyString else String c (strip_port rest)
  end.

(** The three ways a domain entry can match a query.  [norm] is what is done
    to the queried hostname before it is compared: the specification
    lowercases it ([toLowerCase]); comparing it as it was given is [id]. *)
Definition spec_domain_match (norm : string -> string)
    (hostname detectedLocale : option string) (entry : DomainLocale.t) : bool :=
  bool_decide (norm <$> hostname
               = Some (toLowerCase (strip_port (DomainLocale.domain entry))))
  || bool_decide (toLowerCase <$> detectedLocale
                  = Some (toLowerCase (DomainLocale.defaultLocale entry)))
  || existsb (fun locale =>
                bool_decide (toLowerCase <$> detectedLocale = Some (toLowerCase locale)))
             (default [] (DomainLocale.locales entry)).

(** First matching entry in configuration order; [None] when no domains are
    configured or none matches. *)
Definition detectDomainLocale_spec (norm : string -> string) (config : NextConfig.t)
    (hostname detectedLocale : option string) : option DomainLocale.t :=
  domains ← (NextConfig.i18n config ≫= i18nConfig.domains);
  find (spec_domain_match norm hostname detectedLocale) domains.

(** "First defined wins". *)
Definition first_defined {A : Type} (signals : list (option A)) (fallback : A) : A :=
  hd fallback (omap id signals).

(** The precedence rule of the Locale Detector over the already resolved
    signals. *)
Definition detectLocale_spec (i18n : i18nConfig.t)
    (domainLocale : option DomainLocale.t) (cookieLocale headerLocale : option string)
    : string :=
  if bool_decide (i18nConfig.localeDetection i18n = Some false) then
    match domainLocale with
    | Some entry => DomainLocale.defaultLocale entry
    | None => i18nConfig.defaultLocale i18n
    end
  else
    first_defined [DomainLocale.defaultLocale <$> domainLocale; cookieLocale; headerLocale]
                  (i18nConfig.defaultLocale i18n).

(** Does the path contain a slash? *)
Fixpoint has_slash (path : string) : bool :=
  match path with
  | EmptyString => false
  | String c rest => Ascii.eqb c "/" || has_slash rest
  end.

(** Does the host name contain a colon? *)
Fixpoint has_colon (host : string) : bool :=
  match host with
  | EmptyString => false
  | String c rest => Ascii.eqb c ":" || has_colon rest
  end.

(** Case-insensitive membership of a path segment in the configured
    locales, as the specification of the Path Localization Checker words
    it. *)
Definition matches_locale_ignoring_case (locales : list string) (segment : string) : bool :=
  existsb (fun locale => String.eqb (toLowerCase segment) (toLowerCase locale)) locales.

(** The redirect result with a given [Location]. *)
Definition redirect_to `{Collaborators} (location : string) : InternalResult.t _ :=
  {| InternalResult.type := "core";
     InternalResult.statusCode := 307;
     InternalResult.headers := {[ "Location" := location ]};
     InternalResult.body := emptyReadableStream;
     InternalResult.isBase64Encoded := false |}.

(** ** Sample collaborators, configurations and requests *)

Module Sample.

(** A stand-in Language Matcher: the header value when it is one of the
    supported locales.  The URL rewriter appends the prefix to the URL. *)
Definition collaborators : Collaborators :=
  {| ReadableStream := list Byte.byte;
     emptyReadableStream := [];
     acceptLanguage := fun header supported =>
       value ← header; find (String.eqb value) supported;
     constructNextUrl := fun url prefix => url +:+ prefix |}.

Definition request (url rawPath : string) (host acceptLanguage cookie : option string)
    : InternalEvent.t :=
  {| InternalEvent.url := url;
     InternalEvent.rawPath := rawPath;
     InternalEvent.headers :=
       (match host with Some h => {[ "host" := h ]} | None => ∅ end)
       ∪ (match acceptLanguage with
          | Some a => {[ "accept-language" := a ]}
          | None => ∅
          end);
     InternalEvent.cookies :=
       match cookie with Some c => {[ "NEXT_LOCALE" := c ]} | None => ∅ end |}.

Definition domain_a : DomainLocale.t := DomainLocale.mk "a.com" "en" None None.
Definition domain_b : DomainLocale.t := DomainLocale.mk "b.com" "fr" (Some ["fr"]) None.
Definition domain_de : DomainLocale.t := DomainLocale.mk "de.example.com" "de" None None.
Definition domain_fr : DomainLocale.t := DomainLocale.mk "fr.example.com" "fr" None None.

Definition i18n_with (locales : list string) (domains : option (list DomainLocale.t))
    : i18nConfig.t :=
  i18nConfig.mk locales "en" None domains.

Definition unconfigured : NextConfig.t := NextConfig.mk None.
Definition i18n_plain : i18nConfig.t := i18n_with ["en"; "fr"] None.
Definition i18n_ab : i18nConfig.t := i18n_with ["en"; "fr"] (Some [domain_a; domain_b]).
Definition i18n_de : i18nConfig.t := i18n_with ["en"; "fr"] (Some [domain_de]).
Definition i18n_fr : i18nConfig.t := i18n_with ["en"; "fr"] (Some [domain_fr]).
Definition i18n_fixed : i18nConfig.t := i18nConfig.mk ["en"; "fr"] "en" (Some false) None.
Definition i18n_region : i18nConfig.t := i18nConfig.mk ["en-US"] "en-US" None None.

Definition config (i18n : i18nConfig.t) : NextConfig.t := NextConfig.mk (Some i18n).

End Sample.

(** ** The routing functions with collaborators that may throw *)

(** Where the imported functions throw: [Some e] when the call
    [acceptLanguage(header, preferences)], respectively
    [constructNextUrl(baseUrl, path)], throws [e]; [None] when it returns the
    answer that [Collaborators] gives. *)
Class CollaboratorFaults : Type := {
  acceptLanguage_fault : option string -> list string -> option error;
  constructNextUrl_fault : string -> string -> option error
}.

(** The functions of index.ts that call [acceptLanguage] or
    [constructNextUrl], with each call throwing where the collaborator does.
    [isLocalizedPath], [getLocaleFromCookie] and [detectDomainLocale] call
    neither and are the ones above. *)
Module Faulting.
Section Routing.
Context `{Collaborators} `{CollaboratorFaults}.

Variable NextConfig : NextConfig.t.

(** The call [acceptLanguage(header, preferences)]. *)
Definition call_acceptLanguage (header : option string) (preferences : list string)
    : completion (option string) :=
  match acceptLanguage_fault header preferences with
  | Some e => Throw e
  | None => Normal (acceptLanguage header preferences)
  end.

(** The call [constructNextUrl(baseUrl, path)]. *)
Definition call_constructNextUrl (baseUrl path : string) : completion string :=
  match constructNextUrl_fault baseUrl path with
  | Some e => Throw e
  | None => Normal (constructNextUrl baseUrl path)
  end.

(** The [debug] call only logs and is left out. *)
Definition detectLocale (internalEvent : InternalEvent.t) (i18n : i18nConfig.t)
    : completion string :=
  domainLocale ←
    detectDomainLocale NextConfig (InternalEvent.headers internalEvent !! "host") None;
  match i18nConfig.localeDetection i18n with
  | Some false =>
      mret (nullish (DomainLocale.defaultLocale <$> domainLocale)
                    (i18nConfig.defaultLocale i18n))
  | _ =>
      let cookiesLocale :=
        getLocaleFromCookie NextConfig (InternalEvent.cookies internalEvent) in
      preferredLocale ←
        call_acceptLanguage (InternalEvent.headers internalEvent !! "accept-language")
                            (i18nConfig.locales i18n);
      mret (nullish
              (nullish_opt
                 (nullish_opt (DomainLocale.defaultLocale <$> domainLocale)
                              cookiesLocale)
                 preferredLocale)
              (i18nConfig.defaultLocale i18n))
  end.

Definition localizePath (internalEvent : InternalEvent.t) : completion string :=
  match NextConfig.i18n NextConfig with
  | None => mret (InternalEvent.rawPath internalEvent)
  | Some i18n =>
      localized ← isLocalizedPath NextConfig (InternalEvent.rawPath internalEvent);
      if localized : bool then mret (InternalEvent.rawPath internalEvent)
      else
        detectedLocale ← detectLocale internalEvent i18n;
        mret ("/" +:+ detectedLocale +:+ InternalEvent.rawPath internalEvent)
  end.

Definition handleLocaleRedirect (internalEvent : InternalEvent.t)
    : completion (option (InternalResult.t _)) :=
  match NextConfig.i18n NextConfig with
  | None => mret None
  | Some i18n =>
      match i18nConfig.localeDetection i18n with
      | Some false => mret None
      | _ =>
          if negb (String.eqb (InternalEvent.rawPath internalEvent) "/")
          then mret None
          else
            preferredLocale ←
              call_acceptLanguage
                (InternalEvent.headers internalEvent !! "accept-language")
                (i18nConfig.locales i18n);
            detectedLocale ← detectLocale internalEvent i18n;
            domainLocale ←
              detectDomainLocale NextConfig
                (InternalEvent.headers internalEvent !! "host") None;
            preferredDomain ← detectDomainLocale NextConfig None preferredLocale;
            let domainRedirect :=
              match domainLocale, preferredDomain with
              | Some domainLocale, Some preferredDomain =>
                  let isPDomain :=
                    String.eqb (DomainLocale.domain preferredDomain)
                               (DomainLocale.domain domainLocale) in
                  let isPLocale :=
                    strict_eq preferredLocale
                              (DomainLocale.defaultLocale preferredDomain) in
                  if negb isPDomain || negb isPLocale then
                    let scheme :=
                      "http" +:+
                      (if truthy (DomainLocale.http preferredDomain) then "" else "s") in
                    let rlocale := if isPLocale then Some "" else preferredLocale in
                    Some {| InternalResult.type := "core";
                            InternalResult.statusCode := 307;
                            InternalResult.headers :=
                              {[ "Location" :=
                                   scheme +:+ "://" +:+
                                   DomainLocale.domain preferredDomain +:+ "/" +:+
                                   interpolate rlocale ]};
                            InternalResult.body := emptyReadableStream;
                            InternalResult.isBase64Encoded := false |}
                  else None
              | _, _ => None
              end in
            match domainRedirect with
            | Some redirect => mret (Some redirect)
            | None =>
                let defaultLocale :=
                  nullish (DomainLocale.defaultLocale <$> domainLocale)
                          (i18nConfig.defaultLocale i18n) in
                if negb (String.eqb (toLowerCase detectedLocale)
                                    (toLowerCase defaultLocale))
                then
                  location ←
                    call_constructNextUrl (InternalEvent.url internalEvent)
                                          ("/" +:+ detectedLocale);
                  mret (Some
                    {| InternalResult.type := "core";
                       InternalResult.statusCode := 307;
                       InternalResult.headers := {[ "Location" := location ]};
                       InternalResult.body := emptyReadableStream;
                       InternalResult.isBase64Encoded := false |})
                else mret None
            end
      end
  end.

End Routing.
End Faulting.

(** Sample faults: the stand-in matcher rejects the header value
    [fr;q=0.9;x=1] and the stand-in URL rewriter rejects the empty URL. *)
Module SampleFaults.

Definition faults : CollaboratorFaults :=
  {| acceptLanguage_fault := fun header _ =>
       match header with
       | Some value =>
           if String.eqb value "fr;q=0.9;x=1"
           then Some (Error "Invalid accept-language header")
           else None
       | None => None
       end;
     constructNextUrl_fault := fun baseUrl _ =>
       if String.eqb baseUrl "" then Some (TypeError "Invalid URL") else None |}.

End SampleFaults.


Lemma split_colon_head (s : string) :
  ∃ pieces, split ":" s = strip_port s :: pieces.
Proof.
  induction s as [|c s [pieces IH]]; simpl; [by eauto|].
  destruct (Ascii.eqb c ":"); [by eauto|]. rewrite IH. by eauto.
Qed.

Lemma domainHostname_normal (d : string) :
  toLowerCase_of (split_limit ":" 1 d !! 0%nat) = Normal (toLowerCase (strip_port d)).
Proof.
  unfold split_limit. destruct (split_colon_head d) as [pieces ->]. done.
Qed.

Lemma strict_eq_decide (a : option string) (b : string) :
  strict_eq a b = bool_decide (a = Some b).
Proof.
  destruct a as [s|]; simpl; [|done].
  destruct (String.eqb_spec s b) as [->|Hne].
  - by rewrite bool_decide_eq_true_2.
  - rewrite bool_decide_eq_false_2; [done|]. congruence.
Qed.

Lemma domain_matches_spec (h l : option string) (d : DomainLocale.t) :
  domain_matches h (toLowerCase <$> l)
                 (toLowerCase (strip_port (DomainLocale.domain d))) d
  = spec_domain_match id h l d.
Proof.
  unfold domain_matches, spec_domain_match.
  rewrite !strict_eq_decide, option_fmap_id.
  f_equal. destruct (DomainLocale.locales d) as [ls|]; simpl; [|done].
  induction ls as [|x ls IH]; simpl; [done|].
  by rewrite strict_eq_decide, IH.
Qed.

Lemma detectDomainLocale_loop_find (h l : option string) (ds : list DomainLocale.t) :
  detectDomainLocale_loop h (toLowerCase <$> l) ds
  = Normal (find (spec_domain_match id h l) ds).
Proof.
  induction ds as [|d ds IH]; simpl; [done|].
  rewrite domainHostname_normal. simpl.
  rewrite domain_matches_spec.
  by destruct (spec_domain_match id h l d).
Qed.

Lemma detectDomainLocale_normal (config : NextConfig.t) (h l : option string) :
  detectDomainLocale config h l = Normal (detectDomainLocale_spec id config h l).
Proof.
  unfold detectDomainLocale, detectDomainLocale_spec.
  destruct (NextConfig.i18n config ≫= i18nConfig.domains) as [ds|]; simpl; [|done].
  apply detectDomainLocale_loop_find.
Qed.

Lemma find_first_match {A : Type} (P : A → bool) (l : list A) (x : A) :
  find P l = Some x →
  ∃ before after, l = before ++ x :: after ∧ P x = true ∧ ∀ y, y ∈ before → P y = false.
Proof.
  induction l as [|a l IH]; simpl; [done|].
  destruct (P a) eqn:Ha.
  - intros [= ->]. exists [], l. split_and!; [done..|]. intros y Hy. by apply elem_of_nil in Hy.
  - intros Hfind. destruct (IH Hfind) as (before & after & -> & Hx & Hbefore).
    exists (a :: before), after. split_and!; [done..|].
    intros y [->|Hy]%elem_of_cons; auto.
Qed.

Lemma find_no_match {A : Type} (P : A → bool) (l : list A) :
  find P l = None ↔ ∀ y, y ∈ l → P y = false.
Proof.
  induction l as [|a l IH]; simpl.
  - split; [|done]. intros _ y Hy. by apply elem_of_nil in Hy.
  - destruct (P a) eqn:Ha.
    + split; [done|]. intros Hall. rewrite Hall in Ha; [done|]. by left.
    + rewrite IH. split.
      * intros Hall y [->|Hy]%elem_of_cons; auto.
      * intros Hall y Hy. apply Hall. by right.
Qed.

Lemma spec_domain_match_undefined (norm : string → string) (d : DomainLocale.t) :
  spec_domain_match norm None None d = false.
Proof.
  unfold spec_domain_match. simpl.
  by induction (default [] (DomainLocale.locales d)).
Qed.

Lemma detectDomainLocale_spec_undefined (norm : string → string) (config : NextConfig.t) :
  detectDomainLocale_spec norm config None None = None.
Proof.
  unfold detectDomainLocale_spec.
  destruct (NextConfig.i18n config ≫= i18nConfig.domains) as [ds|]; simpl; [|done].
  apply find_no_match. intros. apply spec_domain_match_undefined.
Qed.

Section Detector.
Context `{Collaborators}.

Lemma detectLocale_normal (config : NextConfig.t) (ev : InternalEvent.t)
    (i18n : i18nConfig.t) :
  detectLocale config ev i18n
  = Normal (detectLocale_spec i18n
              (detectDomainLocale_spec id config (InternalEvent.headers ev !! "host") None)
              (getLocaleFromCookie config (InternalEvent.cookies ev))
              (acceptLanguage (InternalEvent.headers ev !! "accept-language")
                              (i18nConfig.locales i18n))).
Proof.
  unfold detectLocale, detectLocale_spec, first_defined.
  rewrite detectDomainLocale_normal. simpl.
  destruct (detectDomainLocale_spec _ _ _ _) as [d|];
    destruct (i18nConfig.localeDetection i18n) as [[|]|]; simpl; try done;
    destruct (getLocaleFromCookie _ _); simpl; try done;
    by destruct (acceptLanguage _ _).
Qed.
End Detector.

(** ** Domain Locale Resolver *)

(** C4, as stated, fails: the claim lowercases the queried hostname before
    comparing it, the code compares it as it was given.  With the domain
    [a.com] configured, the hostname [A.COM] matches under the claim's
    reading and resolves to nothing in the code. *)
Lemma detectDomainLocale_hostname_not_lowercased :
  detectDomainLocale (Sample.config Sample.i18n_ab) (Some "A.COM") None
  ≠ Normal (detectDomainLocale_spec toLowerCase (Sample.config Sample.i18n_ab)
              (Some "A.COM") None).
Proof. vm_compute. discriminate. Qed.

(** C4, amended: [detectDomainLocale] never throws and returns the first
    entry, in configuration order, for which the hostname exactly as given
    equals the entry's domain with its port stripped and lowercased, or the
    lowercased detected locale equals the entry's lowercased default locale
    or one of its lowercased optional locales.  Every entry listed before
    the returned one fails the test, and the result is [undefined] exactly
    when no domains are configured or no entry passes. *)
Theorem detectDomainLocale_first_match (config : NextConfig.t)
    (hostname detectedLocale : option string) :
  let matches := spec_domain_match id hostname detectedLocale in
  let configured := NextConfig.i18n config ≫= i18nConfig.domains in
  detectDomainLocale config hostname detectedLocale
  = Normal (detectDomainLocale_spec id config hostname detectedLocale)
  ∧ (∀ entry,
       detectDomainLocale config hostname detectedLocale = Normal (Some entry) →
       ∃ before after,
         configured = Some (before ++ entry :: after)
         ∧ matches entry = true
         ∧ ∀ earlier, earlier ∈ before → matches earlier = false)
  ∧ (detectDomainLocale config hostname detectedLocale = Normal None
     ↔ configured = None
       ∨ ∃ domains, configured = Some domains
                    ∧ ∀ entry, entry ∈ domains → matches entry = false).
Proof.
  intros matches configured. rewrite detectDomainLocale_normal.
  split_and!; [done| |].
  - intros entry [= Hspec]. unfold detectDomainLocale_spec in Hspec.
    fold configured in Hspec. destruct configured as [ds|]; simpl in Hspec; [|done].
    destruct (find_first_match _ _ _ Hspec) as (before & after & -> & ? & ?).
    by exists before, after.
  - unfold detectDomainLocale_spec. fold configured.
    destruct configured as [ds|]; simpl.
    + split.
      * intros [= Hnone]. right. exists ds. split; [done|]. by apply find_no_match.
      * intros [?|(ds' & [= <-] & Hall)]; [done|]. f_equal. by apply find_no_match.
    + split; [by left|done].
Qed.

Lemma detectDomainLocale_first_match_witness :
  ∃ before after,
    Some [Sample.domain_a; Sample.domain_b] = Some (before ++ Sample.domain_b :: after)
    ∧ spec_domain_match id None (Some "FR") Sample.domain_b = true
    ∧ ∀ earlier, earlier ∈ before →
                 spec_domain_match id None (Some "FR") earlier = false.
Proof.
  apply (proj1 (proj2 (detectDomainLocale_first_match
                         (Sample.config Sample.i18n_ab) None (Some "FR")))).
  vm_compute. reflexivity.
Defined.

(** ** Locale Detector *)

Section LocaleDetector.
Context `{Collaborators}.

(** C1: [detectLocale] never throws and computes the reference precedence
    rule over the domain entry resolved from the [host] header alone, the
    [NEXT_LOCALE] cookie locale and the Language Matcher's locale.  With
    [localeDetection === false] the result depends on the request only
    through its [host] header, and it is [i18n.defaultLocale] when no domain
    resolves, whatever the cookies and the other headers are. *)
Theorem detectLocale_refines_precedence (config : NextConfig.t)
    (internalEvent : InternalEvent.t) (i18n : i18nConfig.t) :
  let host := InternalEvent.headers internalEvent !! "host" in
  ∃ domainLocale,
    detectDomainLocale config host None = Normal domainLocale
    ∧ detectLocale config internalEvent i18n
      = Normal (detectLocale_spec i18n domainLocale
                  (getLocaleFromCookie config (InternalEvent.cookies internalEvent))
                  (acceptLanguage (InternalEvent.headers internalEvent !! "accept-language")
                                  (i18nConfig.locales i18n)))
    ∧ (i18nConfig.localeDetection i18n = Some false →
       (∀ other : InternalEvent.t,
          InternalEvent.headers other !! "host" = host →
          detectLocale config other i18n = detectLocale config internalEvent i18n)
       ∧ (domainLocale = None →
          detectLocale config internalEvent i18n
          = Normal (i18nConfig.defaultLocale i18n))).
Proof.
  intros host. eexists. split; [apply detectDomainLocale_normal|].
  split; [apply detectLocale_normal|].
  intros Hfixed. split.
  - intros other Hhost. rewrite !detectLocale_normal. fold host. rewrite Hhost.
    unfold detectLocale_spec. by rewrite Hfixed.
  - intros Hnone. rewrite detectLocale_normal. fold host. rewrite Hnone.
    unfold detectLocale_spec. by rewrite Hfixed.
Qed.

End LocaleDetector.

Lemma detectLocale_refines_precedence_witness :
  detectLocale (H := Sample.collaborators) (Sample.config Sample.i18n_fixed)
    (Sample.request "https://example.com" "/" (Some "example.com") (Some "fr") (Some "fr"))
    Sample.i18n_fixed
  = Normal "en".
Proof.
  destruct (detectLocale_refines_precedence (H := Sample.collaborators)
              (Sample.config Sample.i18n_fixed)
              (Sample.request "https://example.com" "/" (Some "example.com")
                              (Some "fr") (Some "fr"))
              Sample.i18n_fixed) as (domainLocale & Hdomain & _ & Hfixed).
  apply Hfixed; [reflexivity|].
  vm_compute in Hdomain. congruence.
Defined.

(** ** Entry guards of the Path Localizer and the Redirect Decision Engine *)

Section Guards.
Context `{Collaborators}.

(** C5: without an i18n configuration [localizePath] returns [rawPath]
    unchanged and [handleLocaleRedirect] returns [false]; and
    [handleLocaleRedirect] returns [false] whenever i18n is unconfigured, or
    [localeDetection === false], or [rawPath] is not exactly ["/"]. *)
Theorem unconfigured_and_guarded_requests_pass_through (config : NextConfig.t)
    (internalEvent : InternalEvent.t) :
  (NextConfig.i18n config = None →
   localizePath config internalEvent = Normal (InternalEvent.rawPath internalEvent)
   ∧ handleLocaleRedirect config internalEvent = Normal None)
  ∧ (NextConfig.i18n config = None
     ∨ (∃ i18n, NextConfig.i18n config = Some i18n
                ∧ i18nConfig.localeDetection i18n = Some false)
     ∨ InternalEvent.rawPath internalEvent ≠ "/" →
     handleLocaleRedirect config internalEvent = Normal None).
Proof.
  split.
  - intros Hnone. unfold localizePath, handleLocaleRedirect. by rewrite Hnone.
  - unfold handleLocaleRedirect.
    intros [Hnone|[(i18n & Hsome & Hfixed)|Hdeep]].
    + by rewrite Hnone.
    + by rewrite Hsome, Hfixed.
    + destruct (NextConfig.i18n config) as [i18n|]; [|done].
      destruct (String.eqb_spec (InternalEvent.rawPath internalEvent) "/") as [|_];
        [done|].
      by destruct (i18nConfig.localeDetection i18n) as [[|]|].
Qed.

End Guards.

Lemma unconfigured_and_guarded_requests_pass_through_witness :
  handleLocaleRedirect (H := Sample.collaborators) (Sample.config Sample.i18n_plain)
    (Sample.request "https://example.com/about" "/about" (Some "example.com")
                    (Some "fr") None)
  = Normal None
  ∧ localizePath (H := Sample.collaborators) Sample.unconfigured
      (Sample.request "https://example.com/about" "/about" (Some "example.com")
                      (Some "fr") None)
    = Normal "/about".
Proof.
  split.
  - apply (proj2 (unconfigured_and_guarded_requests_pass_through
                    (H := Sample.collaborators) _ _)).
    right. right. vm_compute. discriminate.
  - apply (proj1 (unconfigured_and_guarded_requests_pass_through
                    (H := Sample.collaborators) Sample.unconfigured
                    (Sample.request "https://example.com/about" "/about"
                                    (Some "example.com") (Some "fr") None))
                 eq_refl).
Defined.

(** ** Redirect Decision Engine *)

Section RedirectEngine.
Context `{Collaborators}.

(** Every redirect comes from one of the two branches. *)
Lemma handleLocaleRedirect_inv (config : NextConfig.t) (internalEvent : InternalEvent.t)
    (redirect : InternalResult.t _) :
  handleLocaleRedirect config internalEvent = Normal (Some redirect) →
  ∃ i18n,
    NextConfig.i18n config = Some i18n
    ∧ i18nConfig.localeDetection i18n ≠ Some false
    ∧ InternalEvent.rawPath internalEvent = "/"
    ∧ let preferredLocale :=
        acceptLanguage (InternalEvent.headers internalEvent !! "accept-language")
                       (i18nConfig.locales i18n) in
      (∃ domainLocale preferredDomain,
         detectDomainLocale_spec id config
           (InternalEvent.headers internalEvent !! "host") None = Some domainLocale
         ∧ detectDomainLocale_spec id config None preferredLocale = Some preferredDomain
         ∧ redirect
           = redirect_to
               ("http" +:+ (if truthy (DomainLocale.http preferredDomain) then "" else "s")
                +:+ "://" +:+ DomainLocale.domain preferredDomain +:+ "/"
                +:+ interpolate
                      (if strict_eq preferredLocale
                                    (DomainLocale.defaultLocale preferredDomain)
                       then Some "" else preferredLocale)))
      ∨ (∃ detectedLocale,
           detectLocale config internalEvent i18n = Normal detectedLocale
           ∧ redirect
             = redirect_to (constructNextUrl (InternalEvent.url internalEvent)
                                             ("/" +:+ detectedLocale))).
Proof.
  unfold handleLocaleRedirect.
  destruct (NextConfig.i18n config) as [i18n|] eqn:Hconfig; [|done].
  intros Hresult. exists i18n. split; [done|].
  assert (i18nConfig.localeDetection i18n ≠ Some false) as Hdetect.
  { intros Hfixed. by rewrite Hfixed in Hresult. }
  split; [done|].
  destruct (String.eqb_spec (InternalEvent.rawPath internalEvent) "/") as [Hroot|_];
    [|by destruct (i18nConfig.localeDetection i18n) as [[|]|]].
  split; [done|].
  assert (∀ A (x y : completion A),
            match i18nConfig.localeDetection i18n with
            | Some false => x
            | _ => y
            end = y) as Hskip.
  { intros. by destruct (i18nConfig.localeDetection i18n) as [[|]|]. }
  rewrite Hskip in Hresult. simpl in Hresult.
  rewrite detectLocale_normal, !detectDomainLocale_normal in Hresult.
  simpl in Hresult.
  destruct (detectDomainLocale_spec id config
              (InternalEvent.headers internalEvent !! "host") None)
    as [domainLocale|] eqn:Hdomain;
    [destruct (detectDomainLocale_spec id config None _)
       as [preferredDomain|] eqn:Hpreferred|].
  - destruct (_ || _) in Hresult.
    + left. exists domainLocale, preferredDomain.
      split_and!; [done..|]. by injection Hresult as <-.
    + right. eexists. split; [apply detectLocale_normal|].
      destruct (negb _) in Hresult; [|done]. injection Hresult as <-.
      by rewrite Hdomain.
  - right. eexists. split; [apply detectLocale_normal|].
    destruct (negb _) in Hresult; [|done]. injection Hresult as <-.
    by rewrite Hdomain.
  - right. eexists. split; [apply detectLocale_normal|].
    destruct (negb _) in Hresult; [|done]. injection Hresult as <-.
    by rewrite Hdomain.
Qed.

(** The domain-canonicalization branch, once both lookups resolve. *)
Lemma domain_canonicalization_redirect (config : NextConfig.t)
    (internalEvent : InternalEvent.t) (i18n : i18nConfig.t)
    (domainLocale preferredDomain : DomainLocale.t) :
  let preferredLocale :=
    acceptLanguage (InternalEvent.headers internalEvent !! "accept-language")
                   (i18nConfig.locales i18n) in
  NextConfig.i18n config = Some i18n →
  i18nConfig.localeDetection i18n ≠ Some false →
  InternalEvent.rawPath internalEvent = "/" →
  detectDomainLocale config (InternalEvent.headers internalEvent !! "host") None
  = Normal (Some domainLocale) →
  detectDomainLocale config None preferredLocale = Normal (Some preferredDomain) →
  DomainLocale.domain preferredDomain ≠ DomainLocale.domain domainLocale
  ∨ preferredLocale ≠ Some (DomainLocale.defaultLocale preferredDomain) →
  ∃ locale,
    preferredLocale = Some locale
    ∧ handleLocaleRedirect config internalEvent
      = Normal (Some (redirect_to
          ((if truthy (DomainLocale.http preferredDomain) then "http" else "https")
           +:+ "://" +:+ DomainLocale.domain preferredDomain +:+ "/"
           +:+ (if bool_decide (locale = DomainLocale.defaultLocale preferredDomain)
                then "" else locale)))).
Proof.
  intros preferredLocale Hconfig Hdetect Hroot Hdomain Hpreferred Hbranch.
  rewrite detectDomainLocale_normal in Hdomain, Hpreferred.
  injection Hdomain as Hdomain. injection Hpreferred as Hpreferred.
  destruct preferredLocale as [locale|] eqn:Hlocale;
    [|by rewrite detectDomainLocale_spec_undefined in Hpreferred].
  exists locale. split; [done|].
  unfold handleLocaleRedirect. rewrite Hconfig, Hroot.
  fold preferredLocale. rewrite Hlocale.
  assert (∀ A (x y : completion A),
            match i18nConfig.localeDetection i18n with
            | Some false => x
            | _ => y
            end = y) as ->.
  { intros. by destruct (i18nConfig.localeDetection i18n) as [[|]|]. }
  simpl. rewrite detectLocale_normal, !detectDomainLocale_normal. simpl.
  rewrite Hdomain, Hpreferred.
  assert (negb (String.eqb (DomainLocale.domain preferredDomain)
                           (DomainLocale.domain domainLocale))
          || negb (String.eqb locale (DomainLocale.defaultLocale preferredDomain))
          = true) as ->.
  { apply orb_true_iff.
    destruct Hbranch as [Hne|Hne]; [left|right]; apply negb_true_iff, String.eqb_neq;
      congruence. }
  unfold redirect_to. do 4 f_equal.
  destruct (String.eqb_spec locale (DomainLocale.defaultLocale preferredDomain))
    as [->|Hne].
  - rewrite bool_decide_eq_true_2 by done.
    by destruct (truthy (DomainLocale.http preferredDomain)).
  - rewrite bool_decide_eq_false_2 by done.
    by destruct (truthy (DomainLocale.http preferredDomain)).
Qed.

(** C2: past the entry guard, when the hostname-keyed and the
    preferred-locale-keyed domain lookups both resolve and either the two
    domains differ or the preferred locale is not the preferred domain's
    default, the result is the redirect to
    [{scheme}://{preferredDomain.domain}/{segment}], whatever the detected
    locale is: scheme [http] when [preferredDomain.http] is truthy and
    [https] otherwise, segment empty when the preferred locale is the
    preferred domain's default and the preferred locale otherwise.  With the
    domains [a.com] (default [en]) and [b.com] (default [fr], locales [fr]),
    host [a.com], path ["/"] and a Language Matcher answering [fr], the
    result is the 307 redirect to [https://b.com/]. *)
Theorem handleLocaleRedirect_domain_canonicalization :
  (∀ (config : NextConfig.t) (internalEvent : InternalEvent.t) (i18n : i18nConfig.t)
     (domainLocale preferredDomain : DomainLocale.t),
     let preferredLocale :=
       acceptLanguage (InternalEvent.headers internalEvent !! "accept-language")
                      (i18nConfig.locales i18n) in
     NextConfig.i18n config = Some i18n →
     i18nConfig.localeDetection i18n ≠ Some false →
     InternalEvent.rawPath internalEvent = "/" →
     detectDomainLocale config (InternalEvent.headers internalEvent !! "host") None
     = Normal (Some domainLocale) →
     detectDomainLocale config None preferredLocale = Normal (Some preferredDomain) →
     DomainLocale.domain preferredDomain ≠ DomainLocale.domain domainLocale
     ∨ preferredLocale ≠ Some (DomainLocale.defaultLocale preferredDomain) →
     ∃ locale redirect,
       preferredLocale = Some locale
       ∧ handleLocaleRedirect config internalEvent = Normal (Some redirect)
       ∧ InternalResult.headers redirect !! "Location"
         = Some ((if truthy (DomainLocale.http preferredDomain) then "http" else "https")
                 +:+ "://" +:+ DomainLocale.domain preferredDomain +:+ "/"
                 +:+ (if bool_decide (locale = DomainLocale.defaultLocale preferredDomain)
                      then "" else locale)))
  ∧ (∀ (locales : list string) (defaultLocale : string) (localeDetection : option bool)
       (internalEvent : InternalEvent.t),
       let i18n :=
         i18nConfig.mk locales defaultLocale localeDetection
           (Some [DomainLocale.mk "a.com" "en" None None;
                  DomainLocale.mk "b.com" "fr" (Some ["fr"]) None]) in
       localeDetection ≠ Some false →
       InternalEvent.rawPath internalEvent = "/" →
       InternalEvent.headers internalEvent !! "host" = Some "a.com" →
       acceptLanguage (InternalEvent.headers internalEvent !! "accept-language") locales
       = Some "fr" →
       ∃ redirect,
         handleLocaleRedirect (NextConfig.mk (Some i18n)) internalEvent
         = Normal (Some redirect)
         ∧ InternalResult.statusCode redirect = 307%Z
         ∧ InternalResult.headers redirect !! "Location" = Some "https://b.com/").
Proof.
  split.
  - intros config internalEvent i18n domainLocale preferredDomain preferredLocale
           Hconfig Hdetect Hroot Hdomain Hpreferred Hbranch.
    destruct (domain_canonicalization_redirect config internalEvent i18n
                domainLocale preferredDomain Hconfig Hdetect Hroot Hdomain Hpreferred
                Hbranch) as (locale & Hlocale & Hredirect).
    exists locale. eexists. split_and!; [done|exact Hredirect|].
    apply lookup_singleton_eq.
  - intros locales defaultLocale localeDetection internalEvent i18n
           Hdetect Hroot Hhost Hmatch.
    destruct (domain_canonicalization_redirect (NextConfig.mk (Some i18n))
                internalEvent i18n
                (DomainLocale.mk "a.com" "en" None None)
                (DomainLocale.mk "b.com" "fr" (Some ["fr"]) None))
      as (locale & Hlocale & Hredirect); try done.
    + by rewrite Hhost.
    + simpl. by rewrite Hmatch.
    + by left.
    + simpl in Hlocale. rewrite Hmatch in Hlocale. injection Hlocale as <-.
      eexists. split_and!; [exact Hredirect|done|]. apply lookup_singleton_eq.
Qed.

(** C3: every redirect returned by [handleLocaleRedirect], from the
    domain-canonicalization branch or from the locale-canonicalization
    branch, has type ["core"], status code 307, a headers object holding
    exactly a [Location] string, the empty body stream and
    [isBase64Encoded] false. *)
Theorem handleLocaleRedirect_wire_shape (config : NextConfig.t)
    (internalEvent : InternalEvent.t) (redirect : InternalResult.t _) :
  handleLocaleRedirect config internalEvent = Normal (Some redirect) →
  InternalResult.type redirect = "core"
  ∧ InternalResult.statusCode redirect = 307%Z
  ∧ (∃ location, InternalResult.headers redirect = {[ "Location" := location ]})
  ∧ InternalResult.body redirect = emptyReadableStream
  ∧ InternalResult.isBase64Encoded redirect = false.
Proof.
  intros Hresult.
  destruct (handleLocaleRedirect_inv _ _ _ Hresult)
    as (i18n & _ & _ & _ & [(? & ? & _ & _ & ->)|(? & _ & ->)]);
    simpl; split_and!; eauto.
Qed.

(** C10: when the Language Matcher yields no preferred locale, the
    locale-keyed domain lookup receives an undefined locale and matches no
    entry, so a redirect, if any, is the locale-prefix redirect on the
    current URL, built from the detected locale; no [Location] embeds an
    undefined preferred locale. *)
Theorem no_preferred_locale_no_domain_redirect (config : NextConfig.t)
    (internalEvent : InternalEvent.t) (i18n : i18nConfig.t) :
  NextConfig.i18n config = Some i18n →
  acceptLanguage (InternalEvent.headers internalEvent !! "accept-language")
                 (i18nConfig.locales i18n) = None →
  detectDomainLocale config None None = Normal None
  ∧ ∀ redirect,
      handleLocaleRedirect config internalEvent = Normal (Some redirect) →
      ∃ detectedLocale,
        detectLocale config internalEvent i18n = Normal detectedLocale
        ∧ redirect
          = redirect_to (constructNextUrl (InternalEvent.url internalEvent)
                                          ("/" +:+ detectedLocale)).
Proof.
  intros Hconfig Hnone. split.
  - by rewrite detectDomainLocale_normal, detectDomainLocale_spec_undefined.
  - intros redirect Hresult.
    destruct (handleLocaleRedirect_inv _ _ _ Hresult)
      as (i18n' & Hconfig' & _ & _ & Hbranch).
    assert (i18n' = i18n) as -> by congruence.
    simpl in Hbranch. rewrite Hnone in Hbranch.
    destruct Hbranch as [(? & ? & _ & Hpreferred & _)|Hlocale]; [|done].
    by rewrite detectDomainLocale_spec_undefined in Hpreferred.
Qed.

End RedirectEngine.

Lemma handleLocaleRedirect_domain_canonicalization_witness :
  ∃ redirect,
    handleLocaleRedirect (H := Sample.collaborators) (Sample.config Sample.i18n_ab)
      (Sample.request "https://a.com/" "/" (Some "a.com") (Some "fr") None)
    = Normal (Some redirect)
    ∧ InternalResult.headers redirect !! "Location" = Some "https://b.com/".
Proof.
  destruct (proj1 (handleLocaleRedirect_domain_canonicalization
                     (H := Sample.collaborators))
                  (Sample.config Sample.i18n_ab)
                  (Sample.request "https://a.com/" "/" (Some "a.com") (Some "fr") None)
                  Sample.i18n_ab Sample.domain_a Sample.domain_b)
    as (locale & redirect & Hlocale & Hredirect & Hlocation).
  - reflexivity.
  - discriminate.
  - reflexivity.
  - vm_compute. reflexivity.
  - vm_compute. reflexivity.
  - left. discriminate.
  - vm_compute in Hlocale. injection Hlocale as <-.
    exists redirect. split; [exact Hredirect|]. rewrite Hlocation.
    vm_compute. reflexivity.
Defined.

Lemma handleLocaleRedirect_wire_shape_witness :
  ∃ location,
    InternalResult.headers
      (redirect_to (H := Sample.collaborators) "https://en.example.com/fr")
    = {[ "Location" := location ]}.
Proof.
  apply (handleLocaleRedirect_wire_shape (H := Sample.collaborators)
           (Sample.config Sample.i18n_fr)
           (Sample.request "https://en.example.com" "/" (Some "en.example.com")
                           (Some "fr") None)
           (redirect_to (H := Sample.collaborators) "https://en.example.com/fr")).
  vm_compute. reflexivity.
Defined.

Lemma no_preferred_locale_no_domain_redirect_witness :
  ∃ detectedLocale,
    detectLocale (H := Sample.collaborators) (Sample.config Sample.i18n_ab)
      (Sample.request "https://c.com" "/" (Some "c.com") None (Some "FR"))
      Sample.i18n_ab
    = Normal detectedLocale
    ∧ redirect_to (H := Sample.collaborators) "https://c.com/fr"
      = redirect_to (H := Sample.collaborators)
          (constructNextUrl (Collaborators := Sample.collaborators)
             "https://c.com" ("/" +:+ detectedLocale)).
Proof.
  apply (proj2 (no_preferred_locale_no_domain_redirect (H := Sample.collaborators)
                  (Sample.config Sample.i18n_ab)
                  (Sample.request "https://c.com" "/" (Some "c.com") None (Some "FR"))
                  Sample.i18n_ab eq_refl eq_refl)).
  vm_compute. reflexivity.
Defined.

(** ** Path Localization Checker and Path Localizer *)

Lemma includes_elem_of (arr : list string) (x : string) :
  includes arr x = true ↔ x ∈ arr.
Proof.
  unfold includes. rewrite existsb_exists. split.
  - intros (y & Hin & ->%String.eqb_eq). by apply list_elem_of_In.
  - intros Hin. exists x. split; [by apply list_elem_of_In|apply String.eqb_refl].
Qed.

Lemma split_without_slash (path : string) :
  has_slash path = false → split "/" path = [path].
Proof.
  induction path as [|c path IH]; simpl; [done|].
  destruct (Ascii.eqb c "/"); simpl; [done|].
  intros Hrest. by rewrite IH.
Qed.


Lemma split_segment (segment rest : string) :
  has_slash segment = false →
  split "/" (segment +:+ String "/" rest) = segment :: split "/" rest.
Proof.
  induction segment as [|c segment IH]; simpl; [done|].
  destruct (Ascii.eqb c "/"); simpl; [done|].
  intros Hsegment. by rewrite IH.
Qed.

Lemma split_localized (locale rest : string) :
  has_slash locale = false →
  split "/" ("/" +:+ locale +:+ String "/" rest) !! 1%nat = Some locale.
Proof.
  intros Hlocale.
  change ("/" +:+ locale +:+ String "/" rest)
    with (String "/" (locale +:+ String "/" rest)).
  cbn [split]. rewrite Ascii.eqb_refl, (split_segment _ _ Hlocale). done.
Qed.

(** What [isLocalizedPath] computes once i18n is configured: it looks up
    the lowercased second piece of the split path among the configured
    locales as they are written, and throws when there is no second piece. *)
Lemma isLocalizedPath_configured (config : NextConfig.t) (i18n : i18nConfig.t)
    (path : string) :
  NextConfig.i18n config = Some i18n →
  isLocalizedPath config path
  = match split "/" path !! 1%nat with
    | Some segment => Normal (includes (i18nConfig.locales i18n) (toLowerCase segment))
    | None => Throw (TypeError "Cannot read properties of undefined (reading 'toLowerCase')")
    end.
Proof.
  intros Hconfig. unfold isLocalizedPath. rewrite Hconfig.
  by destruct (split "/" path !! 1%nat).
Qed.

Lemma getLocaleFromCookie_configured (config : NextConfig.t) (i18n : i18nConfig.t)
    (cookies : gmap string string) (locale : string) :
  NextConfig.i18n config = Some i18n →
  getLocaleFromCookie config cookies = Some locale →
  locale ∈ i18nConfig.locales i18n.
Proof.
  intros Hconfig. unfold getLocaleFromCookie. rewrite Hconfig.
  destruct (cookies !! "NEXT_LOCALE") as [cookie|]; simpl; [|done].
  destruct (String.eqb (toLowerCase cookie) ""); [done|].
  intros [Hin _]%find_some. by apply list_elem_of_In.
Qed.

Lemma detectDomainLocale_spec_configured (norm : string → string)
    (config : NextConfig.t) (i18n : i18nConfig.t) (hostname detectedLocale : option string)
    (entry : DomainLocale.t) :
  NextConfig.i18n config = Some i18n →
  detectDomainLocale_spec norm config hostname detectedLocale = Some entry →
  ∃ domains, i18nConfig.domains i18n = Some domains ∧ entry ∈ domains.
Proof.
  intros Hconfig. unfold detectDomainLocale_spec. rewrite Hconfig. simpl.
  destruct (i18nConfig.domains i18n) as [domains|]; simpl; [|done].
  intros [Hin _]%find_some. exists domains. split; [done|]. by apply list_elem_of_In.
Qed.

Section PathLocalizer.
Context `{Collaborators}.

Lemma handleLocaleRedirect_normal (config : NextConfig.t) (internalEvent : InternalEvent.t) :
  ∃ result, handleLocaleRedirect config internalEvent = Normal result.
Proof.
  unfold handleLocaleRedirect.
  destruct (NextConfig.i18n config) as [i18n|]; [|by eexists].
  destruct (i18nConfig.localeDetection i18n) as [[|]|];
    try (by eexists);
    (destruct (negb _); [by eexists|]);
    rewrite detectLocale_normal, !detectDomainLocale_normal; simpl;
    (destruct (detectDomainLocale_spec id config _ None) as [domainLocale|];
     [destruct (detectDomainLocale_spec id config None _) as [preferredDomain|];
      [destruct (_ || _); [by eexists|]|]|]);
    destruct (negb _); by eexists.
Qed.

(** What [localizePath] returns once i18n is configured and the path has a
    second piece. *)
Lemma localizePath_configured (config : NextConfig.t) (i18n : i18nConfig.t)
    (internalEvent : InternalEvent.t) (segment : string) :
  NextConfig.i18n config = Some i18n →
  split "/" (InternalEvent.rawPath internalEvent) !! 1%nat = Some segment →
  ∃ detectedLocale,
    detectLocale config internalEvent i18n = Normal detectedLocale
    ∧ localizePath config internalEvent
      = Normal (if includes (i18nConfig.locales i18n) (toLowerCase segment)
                then InternalEvent.rawPath internalEvent
                else "/" +:+ detectedLocale +:+ InternalEvent.rawPath internalEvent).
Proof.
  intros Hconfig Hsegment. eexists. split; [apply detectLocale_normal|].
  unfold localizePath. rewrite Hconfig.
  rewrite (isLocalizedPath_configured _ _ _ Hconfig), Hsegment. simpl.
  destruct (includes _ _); [done|]. by rewrite detectLocale_normal.
Qed.

(** C7, amended: when the Language Matcher answers with supported locales
    only, [detectLocale] returns a configured locale, the configured default
    locale, or the default locale of a configured domain entry. *)
Theorem detectLocale_in_configured_locales (config : NextConfig.t)
    (internalEvent : InternalEvent.t) (i18n : i18nConfig.t) :
  NextConfig.i18n config = Some i18n →
  (∀ matched,
     acceptLanguage (InternalEvent.headers internalEvent !! "accept-language")
                    (i18nConfig.locales i18n) = Some matched →
     matched ∈ i18nConfig.locales i18n) →
  ∃ locale,
    detectLocale config internalEvent i18n = Normal locale
    ∧ (locale ∈ i18nConfig.locales i18n
       ∨ locale = i18nConfig.defaultLocale i18n
       ∨ ∃ domains entry,
           i18nConfig.domains i18n = Some domains
           ∧ entry ∈ domains
           ∧ locale = DomainLocale.defaultLocale entry).
Proof.
  intros Hconfig Hmatcher. eexists. split; [apply detectLocale_normal|].
  unfold detectLocale_spec, first_defined.
  destruct (detectDomainLocale_spec id config _ None) as [entry|] eqn:Hdomain.
  - right. right.
    destruct (detectDomainLocale_spec_configured _ _ _ _ _ _ Hconfig Hdomain)
      as (domains & Hdomains & Hentry).
    exists domains, entry. by case_bool_decide.
  - case_bool_decide; [by right; left|]. simpl.
    destruct (getLocaleFromCookie config _) as [cookieLocale|] eqn:Hcookie; simpl.
    + left. by eapply getLocaleFromCookie_configured.
    + destruct (acceptLanguage _ _) as [matched|] eqn:Hmatched; simpl.
      * left. by apply Hmatcher.
      * by right; left.
Qed.


End PathLocalizer.


(** C7, as stated, fails: a domain entry's default locale is returned
    without being checked against the configured locales.  With locales
    [en] and [fr], default [en] and the domain [de.example.com] whose
    default is [de], a request to that host is detected as [de]. *)
Lemma detectLocale_returns_unlisted_domain_default :
  i18nConfig.defaultLocale Sample.i18n_de ∈ i18nConfig.locales Sample.i18n_de
  ∧ detectLocale (H := Sample.collaborators) (Sample.config Sample.i18n_de)
      (Sample.request "https://de.example.com/" "/" (Some "de.example.com") None None)
      Sample.i18n_de
    = Normal "de"
  ∧ ("de" ∉ i18nConfig.locales Sample.i18n_de)
  ∧ "de" ≠ i18nConfig.defaultLocale Sample.i18n_de.
Proof.
  split_and!.
  - apply list_elem_of_In. simpl. by left.
  - vm_compute. reflexivity.
  - intros Hin%list_elem_of_In. simpl in Hin. by destruct Hin as [?|[?|[]]].
  - done.
Qed.

Lemma detectLocale_in_configured_locales_witness :
  ∃ locale,
    detectLocale (H := Sample.collaborators) (Sample.config Sample.i18n_de)
      (Sample.request "https://example.com/" "/" (Some "example.com") (Some "fr") None)
      Sample.i18n_de
    = Normal locale
    ∧ (locale ∈ i18nConfig.locales Sample.i18n_de
       ∨ locale = i18nConfig.defaultLocale Sample.i18n_de
       ∨ ∃ domains entry,
           i18nConfig.domains Sample.i18n_de = Some domains
           ∧ entry ∈ domains
           ∧ locale = DomainLocale.defaultLocale entry).
Proof.
  apply (detectLocale_in_configured_locales (H := Sample.collaborators)
           (Sample.config Sample.i18n_de)
           (Sample.request "https://example.com/" "/" (Some "example.com")
                           (Some "fr") None)
           Sample.i18n_de eq_refl).
  intros matched Hmatched. vm_compute in Hmatched. injection Hmatched as <-.
  apply list_elem_of_In. simpl. right. by left.
Defined.

(** C8, at the failing input: with the single configured locale [en-US],
    the first segment of [/en-US/about] is that very locale, yet
    [isLocalizedPath] answers [false], because the lowercased segment
    [en-us] is looked up among the locales as they are written; so
    [localizePath] prefixes the path a second time. *)
Theorem isLocalizedPath_misses_mixed_case_locale :
  split "/" "/en-US/about" !! 1%nat = Some "en-US"
  ∧ matches_locale_ignoring_case (i18nConfig.locales Sample.i18n_region) "en-US" = true
  ∧ isLocalizedPath (Sample.config Sample.i18n_region) "/en-US/about" = Normal false
  ∧ localizePath (H := Sample.collaborators) (Sample.config Sample.i18n_region)
      (Sample.request "https://example.com/en-US/about" "/en-US/about"
                      (Some "example.com") None None)
    = Normal "/en-US/en-US/about".
Proof. split_and!; vm_compute; reflexivity. Qed.



(** * Further properties of the routing functions *)

(** ** Lowercasing and splitting *)

Lemma lower_ascii_idemp (c : ascii) : lower_ascii (lower_ascii c) = lower_ascii c.
Proof. by destruct c as [[] [] [] [] [] [] [] []]. Qed.

Lemma lower_ascii_slash (c : ascii) : Ascii.eqb (lower_ascii c) "/" = Ascii.eqb c "/".
Proof. by destruct c as [[] [] [] [] [] [] [] []]. Qed.

Lemma lower_ascii_colon (c : ascii) : Ascii.eqb (lower_ascii c) ":" = Ascii.eqb c ":".
Proof. by destruct c as [[] [] [] [] [] [] [] []]. Qed.

Lemma toLowerCase_idemp (s : string) : toLowerCase (toLowerCase s) = toLowerCase s.
Proof. induction s as [|c s IH]; simpl; [done|]. by rewrite lower_ascii_idemp, IH. Qed.

Lemma toLowerCase_empty (s : string) : toLowerCase s = "" ↔ s = "".
Proof. by destruct s. Qed.

Lemma split_toLowerCase (path : string) :
  split "/" (toLowerCase path) = toLowerCase <$> split "/" path.
Proof.
  induction path as [|c path IH]; simpl; [done|].
  rewrite lower_ascii_slash, IH.
  destruct (Ascii.eqb c "/"); [done|].
  by destruct (split "/" path).
Qed.

Lemma has_colon_toLowerCase (host : string) :
  has_colon (toLowerCase host) = has_colon host.
Proof.
  induction host as [|c host IH]; simpl; [done|]. by rewrite lower_ascii_colon, IH.
Qed.

Lemma has_colon_strip_port (host : string) : has_colon (strip_port host) = false.
Proof.
  induction host as [|c host IH]; simpl; [done|].
  destruct (Ascii.eqb c ":") eqn:Hc; simpl; [done|]. by rewrite Hc.
Qed.

(** ** Cookie Locale Extractor *)

(** X1: a locale read from the cookies is the first configured locale, in
    configuration order, whose lowercased form equals the lowercased
    non-empty [NEXT_LOCALE] cookie; it is returned as configured, not as the
    cookie spells it. *)
Theorem getLocaleFromCookie_first_configured (config : NextConfig.t)
    (cookies : gmap string string) (locale : string) :
  getLocaleFromCookie config cookies = Some locale →
  ∃ i18n cookie before after,
    NextConfig.i18n config = Some i18n
    ∧ cookies !! "NEXT_LOCALE" = Some cookie
    ∧ cookie ≠ ""
    ∧ i18nConfig.locales i18n = before ++ locale :: after
    ∧ toLowerCase locale = toLowerCase cookie
    ∧ ∀ earlier, earlier ∈ before → toLowerCase earlier ≠ toLowerCase cookie.
Proof.
  unfold getLocaleFromCookie.
  destruct (cookies !! "NEXT_LOCALE") as [cookie|]; simpl; [|done].
  destruct (String.eqb_spec (toLowerCase cookie) "") as [|Hnonempty]; [done|].
  destruct (NextConfig.i18n config) as [i18n|]; [|done].
  intros (before & after & Hlocales & Hlocale%String.eqb_eq & Hbefore)%find_first_match.
  exists i18n, cookie, before, after. split_and!; try done.
  - intros ->. by apply Hnonempty.
  - intros earlier Hearlier Heq. specialize (Hbefore earlier Hearlier).
    apply String.eqb_neq in Hbefore. by apply Hbefore.
Qed.

Lemma getLocaleFromCookie_first_configured_witness :
  ∃ i18n cookie before after,
    NextConfig.i18n (Sample.config Sample.i18n_plain) = Some i18n
    ∧ ({[ "NEXT_LOCALE" := "FR" ]} : gmap string string) !! "NEXT_LOCALE" = Some cookie
    ∧ cookie ≠ ""
    ∧ i18nConfig.locales i18n = before ++ "fr" :: after
    ∧ toLowerCase "fr" = toLowerCase cookie
    ∧ ∀ earlier, earlier ∈ before → toLowerCase earlier ≠ toLowerCase cookie.
Proof.
  apply (getLocaleFromCookie_first_configured (Sample.config Sample.i18n_plain)
           {[ "NEXT_LOCALE" := "FR" ]} "fr").
  vm_compute. reflexivity.
Defined.

(** X2: the cookie yields no locale exactly when i18n is unconfigured, the
    [NEXT_LOCALE] cookie is absent or empty, or no configured locale equals
    it up to letter case. *)
Theorem getLocaleFromCookie_undefined_iff (config : NextConfig.t)
    (cookies : gmap string string) :
  getLocaleFromCookie config cookies = None
  ↔ NextConfig.i18n config = None
    ∨ cookies !! "NEXT_LOCALE" = None
    ∨ cookies !! "NEXT_LOCALE" = Some ""
    ∨ ∃ i18n cookie,
        NextConfig.i18n config = Some i18n
        ∧ cookies !! "NEXT_LOCALE" = Some cookie
        ∧ ∀ locale, locale ∈ i18nConfig.locales i18n →
                    toLowerCase locale ≠ toLowerCase cookie.
Proof.
  unfold getLocaleFromCookie.
  destruct (cookies !! "NEXT_LOCALE") as [cookie|]; simpl; [|split; by auto].
  destruct (String.eqb_spec (toLowerCase cookie) "") as [Hempty|Hnonempty].
  { apply toLowerCase_empty in Hempty as ->. split; by auto. }
  destruct (NextConfig.i18n config) as [i18n|]; [|split; by auto].
  rewrite find_no_match. split.
  - intros Hnone. do 3 right. exists i18n, cookie. split_and!; [done..|].
    intros locale Hin Heq. specialize (Hnone locale Hin).
    apply String.eqb_neq in Hnone. by apply Hnone.
  - intros [?|[?|[Hcookie|(i18n' & cookie' & Hconfig & Hcookie & Hnone)]]]; try done.
    + injection Hcookie as ->. by destruct Hnonempty.
    + injection Hconfig as <-. injection Hcookie as <-.
      intros locale Hin. apply String.eqb_neq. intros Heq. by apply (Hnone locale Hin).
Qed.

Lemma getLocaleFromCookie_undefined_iff_witness :
  getLocaleFromCookie (Sample.config Sample.i18n_plain) {[ "NEXT_LOCALE" := "" ]} = None.
Proof.
  apply (proj2 (getLocaleFromCookie_undefined_iff (Sample.config Sample.i18n_plain)
                  {[ "NEXT_LOCALE" := "" ]})).
  right. right. left. vm_compute. reflexivity.
Defined.

(** ** Path Localization Checker *)

Lemma includes_lowercase_locales (locales : list string) (segment : string) :
  (∀ locale, locale ∈ locales → toLowerCase locale = locale) →
  includes locales (toLowerCase segment) = matches_locale_ignoring_case locales segment.
Proof.
  unfold includes, matches_locale_ignoring_case.
  induction locales as [|locale locales IH]; simpl; [done|].
  intros Hlower. rewrite (Hlower locale) by (by left).
  f_equal. apply IH. intros other Hother. apply Hlower. by right.
Qed.

(** X3: when every configured locale is written in lower case,
    [isLocalizedPath] is the case-insensitive test: it answers whether the
    path's first segment equals a configured locale up to letter case. *)
Theorem isLocalizedPath_lowercase_locales (config : NextConfig.t) (i18n : i18nConfig.t)
    (path segment : string) :
  NextConfig.i18n config = Some i18n →
  (∀ locale, locale ∈ i18nConfig.locales i18n → toLowerCase locale = locale) →
  split "/" path !! 1%nat = Some segment →
  isLocalizedPath config path
  = Normal (matches_locale_ignoring_case (i18nConfig.locales i18n) segment).
Proof.
  intros Hconfig Hlower Hsegment.
  rewrite (isLocalizedPath_configured _ _ _ Hconfig), Hsegment.
  by rewrite includes_lowercase_locales.
Qed.

Lemma isLocalizedPath_lowercase_locales_witness :
  isLocalizedPath (Sample.config Sample.i18n_plain) "/FR/about"
  = Normal (matches_locale_ignoring_case (i18nConfig.locales Sample.i18n_plain) "FR").
Proof.
  apply (isLocalizedPath_lowercase_locales (Sample.config Sample.i18n_plain)
           Sample.i18n_plain "/FR/about" "FR" eq_refl).
  - intros locale Hin%list_elem_of_In. simpl in Hin.
    by destruct Hin as [<-|[<-|[]]].
  - reflexivity.
Defined.

(** X4: the answer of [isLocalizedPath], a thrown error included, does not
    depend on the letter case of the path. *)
Theorem isLocalizedPath_ignores_path_case (config : NextConfig.t) (path : string) :
  isLocalizedPath config (toLowerCase path) = isLocalizedPath config path.
Proof.
  unfold isLocalizedPath. destruct (NextConfig.i18n config) as [i18n|]; [|done].
  rewrite split_toLowerCase, list_lookup_fmap.
  destruct (split "/" path !! 1%nat) as [segment|]; simpl; [|done].
  by rewrite toLowerCase_idemp.
Qed.

(** X5: [isLocalizedPath] looks at the first segment only: what follows the
    second slash of the path has no influence. *)
Theorem isLocalizedPath_first_segment_only (config : NextConfig.t)
    (segment rest : string) :
  has_slash segment = false →
  isLocalizedPath config ("/" +:+ segment +:+ String "/" rest)
  = isLocalizedPath config ("/" +:+ segment).
Proof.
  intros Hsegment. unfold isLocalizedPath.
  destruct (NextConfig.i18n config) as [i18n|]; [|done].
  rewrite (split_localized _ _ Hsegment).
  change ("/" +:+ segment) with (String "/" segment).
  cbn [split]. rewrite Ascii.eqb_refl, (split_without_slash _ Hsegment). done.
Qed.

Lemma isLocalizedPath_first_segment_only_witness :
  isLocalizedPath (Sample.config Sample.i18n_plain) "/fr/a/b"
  = isLocalizedPath (Sample.config Sample.i18n_plain) "/fr".
Proof.
  apply (isLocalizedPath_first_segment_only (Sample.config Sample.i18n_plain) "fr" "a/b").
  reflexivity.
Defined.

(** ** Path Localizer *)

Section PathLocalizerExtras.
Context `{Collaborators}.

(** X6: when every configured locale is written in lower case, a path whose
    first segment equals a configured locale up to letter case is returned
    unchanged, with the letter case the request used. *)
Theorem localizePath_keeps_localized_path (config : NextConfig.t) (i18n : i18nConfig.t)
    (internalEvent : InternalEvent.t) (segment : string) :
  NextConfig.i18n config = Some i18n →
  (∀ locale, locale ∈ i18nConfig.locales i18n → toLowerCase locale = locale) →
  split "/" (InternalEvent.rawPath internalEvent) !! 1%nat = Some segment →
  matches_locale_ignoring_case (i18nConfig.locales i18n) segment = true →
  localizePath config internalEvent = Normal (InternalEvent.rawPath internalEvent).
Proof.
  intros Hconfig Hlower Hsegment Hmatch.
  destruct (localizePath_configured config i18n internalEvent segment Hconfig Hsegment)
    as (detectedLocale & _ & ->).
  by rewrite includes_lowercase_locales, Hmatch.
Qed.

(** X7: for a path that starts with a slash and is not recognised as
    localized, [localizePath] puts the detected locale in front: when that
    locale contains no slash, the segments of the result are the locale
    followed by the segments of the original path. *)
Theorem localizePath_prefixes_detected_locale (config : NextConfig.t)
    (i18n : i18nConfig.t) (internalEvent : InternalEvent.t) (rest : string) :
  NextConfig.i18n config = Some i18n →
  InternalEvent.rawPath internalEvent = String "/" rest →
  isLocalizedPath config (InternalEvent.rawPath internalEvent) = Normal false →
  ∃ detectedLocale path,
    detectLocale config internalEvent i18n = Normal detectedLocale
    ∧ localizePath config internalEvent = Normal path
    ∧ path = "/" +:+ detectedLocale +:+ InternalEvent.rawPath internalEvent
    ∧ (has_slash detectedLocale = false →
       split "/" path = "" :: detectedLocale :: split "/" rest).
Proof.
  intros Hconfig Hraw Hlocalized.
  exists (detectLocale_spec i18n
            (detectDomainLocale_spec id config
               (InternalEvent.headers internalEvent !! "host") None)
            (getLocaleFromCookie config (InternalEvent.cookies internalEvent))
            (acceptLanguage (InternalEvent.headers internalEvent !! "accept-language")
                            (i18nConfig.locales i18n))).
  eexists. split; [apply detectLocale_normal|].
  split.
  { unfold localizePath. rewrite Hconfig, Hlocalized. simpl.
    by rewrite detectLocale_normal. }
  split; [done|].
  intros Hslash. rewrite Hraw.
  match goal with
  | |- split "/" ("/" +:+ ?l +:+ String "/" rest) = _ =>
      change ("/" +:+ l +:+ String "/" rest) with (String "/" (l +:+ String "/" rest))
  end.
  cbn [split]. by rewrite Ascii.eqb_refl, (split_segment _ _ Hslash).
Qed.

End PathLocalizerExtras.

Lemma localizePath_keeps_localized_path_witness :
  localizePath (H := Sample.collaborators) (Sample.config Sample.i18n_plain)
    (Sample.request "https://example.com/FR/about" "/FR/about" (Some "example.com")
                    None None)
  = Normal "/FR/about".
Proof.
  apply (localizePath_keeps_localized_path (H := Sample.collaborators)
           (Sample.config Sample.i18n_plain) Sample.i18n_plain
           (Sample.request "https://example.com/FR/about" "/FR/about"
                           (Some "example.com") None None)
           "FR" eq_refl).
  - intros locale Hin%list_elem_of_In. simpl in Hin.
    by destruct Hin as [<-|[<-|[]]].
  - reflexivity.
  - reflexivity.
Defined.

Lemma localizePath_prefixes_detected_locale_witness :
  ∃ detectedLocale path,
    detectLocale (H := Sample.collaborators) (Sample.config Sample.i18n_plain)
      (Sample.request "https://example.com/a/b" "/a/b" (Some "example.com")
                      (Some "fr") None)
      Sample.i18n_plain
    = Normal detectedLocale
    ∧ localizePath (H := Sample.collaborators) (Sample.config Sample.i18n_plain)
        (Sample.request "https://example.com/a/b" "/a/b" (Some "example.com")
                        (Some "fr") None)
      = Normal path
    ∧ path = "/" +:+ detectedLocale +:+ "/a/b"
    ∧ (has_slash detectedLocale = false →
       split "/" path = "" :: detectedLocale :: split "/" "a/b").
Proof.
  apply (localizePath_prefixes_detected_locale (H := Sample.collaborators)
           (Sample.config Sample.i18n_plain) Sample.i18n_plain
           (Sample.request "https://example.com/a/b" "/a/b" (Some "example.com")
                           (Some "fr") None)
           "a/b" eq_refl eq_refl).
  vm_compute. reflexivity.
Defined.

(** ** Domain Locale Resolver, keyed on one signal *)

Lemma spec_domain_match_host_only (hostname : string) (entry : DomainLocale.t) :
  spec_domain_match id (Some hostname) None entry
  = bool_decide (hostname = toLowerCase (strip_port (DomainLocale.domain entry))).
Proof.
  unfold spec_domain_match. simpl.
  replace (existsb _ _) with false by (by induction (default [] _)).
  rewrite !orb_false_r. apply bool_decide_ext. split; congruence.
Qed.

Lemma detectDomainLocale_spec_entry (config : NextConfig.t)
    (hostname detectedLocale : option string) (entry : DomainLocale.t) :
  detectDomainLocale_spec id config hostname detectedLocale = Some entry →
  spec_domain_match id hostname detectedLocale entry = true.
Proof.
  unfold detectDomainLocale_spec.
  destruct (NextConfig.i18n config ≫= i18nConfig.domains) as [domains|]; simpl; [|done].
  by intros [_ ?]%find_some.
Qed.

(** X8: a hostname-keyed lookup resolves exactly when some configured entry
    has that host once its port is stripped and it is lowercased, and the
    entry it returns is such an entry. *)
Theorem detectDomainLocale_by_hostname (config : NextConfig.t) (hostname : string) :
  let configured := NextConfig.i18n config ≫= i18nConfig.domains in
  (∀ entry,
     detectDomainLocale config (Some hostname) None = Normal (Some entry) →
     toLowerCase (strip_port (DomainLocale.domain entry)) = hostname)
  ∧ ((∃ entry, detectDomainLocale config (Some hostname) None = Normal (Some entry))
     ↔ ∃ domains entry,
         configured = Some domains
         ∧ entry ∈ domains
         ∧ toLowerCase (strip_port (DomainLocale.domain entry)) = hostname).
Proof.
  intros configured. rewrite detectDomainLocale_normal. split.
  - intros entry [= Hentry%detectDomainLocale_spec_entry].
    rewrite spec_domain_match_host_only in Hentry.
    by apply bool_decide_eq_true_1 in Hentry.
  - unfold detectDomainLocale_spec. fold configured. split.
    + intros [entry [= Hentry]].
      destruct configured as [domains|]; simpl in Hentry; [|done].
      apply find_some in Hentry as [Hin Hmatch].
      rewrite spec_domain_match_host_only in Hmatch.
      apply bool_decide_eq_true_1 in Hmatch.
      exists domains, entry. split_and!; [done| |done]. by apply list_elem_of_In.
    + intros (domains & entry & -> & Hin & Hhost). simpl.
      destruct (find _ domains) as [found|] eqn:Hfind; [by eexists|].
      exfalso. rewrite find_no_match in Hfind. specialize (Hfind entry Hin).
      rewrite spec_domain_match_host_only in Hfind.
      by apply bool_decide_eq_false_1 in Hfind.
Qed.

Lemma detectDomainLocale_by_hostname_witness :
  toLowerCase (strip_port (DomainLocale.domain Sample.domain_b)) = "b.com".
Proof.
  apply (proj1 (detectDomainLocale_by_hostname (Sample.config Sample.i18n_ab) "b.com")).
  vm_compute. reflexivity.
Defined.

(** X9: a request hostname that carries a port, or that is not all lower
    case, resolves to no domain entry, whatever is configured. *)
Theorem detectDomainLocale_rejects_port_and_upper_case (config : NextConfig.t)
    (hostname : string) :
  has_colon hostname = true ∨ toLowerCase hostname ≠ hostname →
  detectDomainLocale config (Some hostname) None = Normal None.
Proof.
  intros Hhost. rewrite detectDomainLocale_normal. f_equal.
  unfold detectDomainLocale_spec.
  destruct (NextConfig.i18n config ≫= i18nConfig.domains) as [domains|]; simpl; [|done].
  apply find_no_match. intros entry _. rewrite spec_domain_match_host_only.
  apply bool_decide_eq_false_2. intros ->.
  destruct Hhost as [Hcolon|Hupper].
  - by rewrite has_colon_toLowerCase, has_colon_strip_port in Hcolon.
  - by rewrite toLowerCase_idemp in Hupper.
Qed.

Lemma detectDomainLocale_rejects_port_and_upper_case_witness :
  detectDomainLocale (Sample.config Sample.i18n_ab) (Some "a.com:3000") None
  = Normal None.
Proof.
  apply (detectDomainLocale_rejects_port_and_upper_case (Sample.config Sample.i18n_ab)
           "a.com:3000").
  left. reflexivity.
Defined.

(** X10: the entry returned by a locale-keyed lookup owns the locale: up to
    letter case the locale is the entry's default locale or one of its
    optional locales. *)
Theorem detectDomainLocale_by_locale (config : NextConfig.t) (locale : string)
    (entry : DomainLocale.t) :
  detectDomainLocale config None (Some locale) = Normal (Some entry) →
  toLowerCase locale = toLowerCase (DomainLocale.defaultLocale entry)
  ∨ ∃ locales other,
      DomainLocale.locales entry = Some locales
      ∧ other ∈ locales
      ∧ toLowerCase locale = toLowerCase other.
Proof.
  rewrite detectDomainLocale_normal.
  intros [= Hentry%detectDomainLocale_spec_entry].
  unfold spec_domain_match in Hentry. simpl in Hentry.
  apply orb_true_iff in Hentry as [Hdefault|Hlocales].
  - apply bool_decide_eq_true_1 in Hdefault. left. congruence.
  - right. destruct (DomainLocale.locales entry) as [locales|]; simpl in Hlocales; [|done].
    apply existsb_exists in Hlocales as (other & Hin & Heq).
    apply bool_decide_eq_true_1 in Heq.
    exists locales, other. split_and!; [done| |congruence]. by apply list_elem_of_In.
Qed.

Lemma detectDomainLocale_by_locale_witness :
  toLowerCase "FR" = toLowerCase (DomainLocale.defaultLocale Sample.domain_b)
  ∨ ∃ locales other,
      DomainLocale.locales Sample.domain_b = Some locales
      ∧ other ∈ locales
      ∧ toLowerCase "FR" = toLowerCase other.
Proof.
  apply (detectDomainLocale_by_locale (Sample.config Sample.i18n_ab) "FR"
           Sample.domain_b).
  vm_compute. reflexivity.
Defined.

(** ** Locale Detector and Redirect Decision Engine on and off a configured domain *)

Section DomainRouting.
Context `{Collaborators}.

(** Steps into the body of [handleLocaleRedirect] past its entry guard. *)
Ltac enter_redirect_engine Hconfig Hroot i18n :=
  unfold handleLocaleRedirect; rewrite Hconfig, Hroot;
  let Hskip := fresh "Hskip" in
  assert (∀ A (x y : completion A),
            match i18nConfig.localeDetection i18n with
            | Some false => x
            | _ => y
            end = y) as Hskip
    by (intros; destruct (i18nConfig.localeDetection i18n) as [[|]|]; congruence);
  rewrite Hskip; clear Hskip; simpl;
  rewrite detectLocale_normal, !detectDomainLocale_normal; simpl.

(** On a configured domain only the domain redirect is possible. *)
Lemma on_domain_redirect_inv (config : NextConfig.t)
    (internalEvent : InternalEvent.t) (entry : DomainLocale.t)
    (redirect : InternalResult.t _) :
  detectDomainLocale config (InternalEvent.headers internalEvent !! "host") None
  = Normal (Some entry) →
  handleLocaleRedirect config internalEvent = Normal (Some redirect) →
  ∃ i18n locale preferredDomain,
    NextConfig.i18n config = Some i18n
    ∧ acceptLanguage (InternalEvent.headers internalEvent !! "accept-language")
                     (i18nConfig.locales i18n) = Some locale
    ∧ detectDomainLocale config None (Some locale) = Normal (Some preferredDomain)
    ∧ (DomainLocale.domain preferredDomain ≠ DomainLocale.domain entry
       ∨ locale ≠ DomainLocale.defaultLocale preferredDomain)
    ∧ redirect
      = redirect_to
          ((if truthy (DomainLocale.http preferredDomain) then "http" else "https")
           +:+ "://" +:+ DomainLocale.domain preferredDomain +:+ "/"
           +:+ (if bool_decide (locale = DomainLocale.defaultLocale preferredDomain)
                then "" else locale)).
Proof.
  intros Hentry Hresult.
  destruct (handleLocaleRedirect_inv _ _ _ Hresult)
    as (i18n & Hconfig & Hdetect & Hroot & Hbranch).
  pose proof Hentry as Hhost. rewrite detectDomainLocale_normal in Hhost.
  injection Hhost as Hhost.
  set (preferredLocale :=
         acceptLanguage (InternalEvent.headers internalEvent !! "accept-language")
                        (i18nConfig.locales i18n)) in *.
  assert (∀ preferredDomain,
            DomainLocale.domain preferredDomain ≠ DomainLocale.domain entry
            ∨ preferredLocale ≠ Some (DomainLocale.defaultLocale preferredDomain) →
            detectDomainLocale_spec id config None preferredLocale
            = Some preferredDomain →
            ∃ i18n locale preferredDomain,
              NextConfig.i18n config = Some i18n
              ∧ acceptLanguage
                  (InternalEvent.headers internalEvent !! "accept-language")
                  (i18nConfig.locales i18n) = Some locale
              ∧ detectDomainLocale config None (Some locale)
                = Normal (Some preferredDomain)
              ∧ (DomainLocale.domain preferredDomain ≠ DomainLocale.domain entry
                 ∨ locale ≠ DomainLocale.defaultLocale preferredDomain)
              ∧ redirect
                = redirect_to
                    ((if truthy (DomainLocale.http preferredDomain)
                      then "http" else "https")
                     +:+ "://" +:+ DomainLocale.domain preferredDomain +:+ "/"
                     +:+ (if bool_decide
                               (locale = DomainLocale.defaultLocale preferredDomain)
                          then "" else locale))) as on_domain_redirect.
  { intros preferredDomain Hdiffer Hpreferred.
    destruct (domain_canonicalization_redirect config internalEvent i18n entry
                preferredDomain Hconfig Hdetect Hroot Hentry)
      as (locale & Hlocale & Hredirect).
    { fold preferredLocale. by rewrite detectDomainLocale_normal, Hpreferred. }
    { done. }
    fold preferredLocale in Hlocale.
    exists i18n, locale, preferredDomain. split_and!; try done.
    - by rewrite detectDomainLocale_normal, <- Hlocale, Hpreferred.
    - destruct Hdiffer as [?|Hne]; [by left|right]. congruence.
    - congruence. }
  destruct (detectDomainLocale_spec id config None preferredLocale)
    as [preferredDomain|] eqn:Hpreferred.
  - destruct (decide (DomainLocale.domain preferredDomain = DomainLocale.domain entry))
      as [Hdomain|Hdomain];
      [destruct (decide (preferredLocale
                         = Some (DomainLocale.defaultLocale preferredDomain)))
         as [Hlocale|Hlocale]|].
    + exfalso. revert Hresult. enter_redirect_engine Hconfig Hroot i18n.
      fold preferredLocale. rewrite Hhost, Hpreferred, Hlocale, Hdomain. simpl.
      rewrite !String.eqb_refl. simpl.
      unfold detectLocale_spec, first_defined.
      rewrite bool_decide_eq_false_2 by done. simpl.
      by rewrite String.eqb_refl.
    + apply (on_domain_redirect preferredDomain); [by right|done].
    + apply (on_domain_redirect preferredDomain); [by left|done].
  - exfalso. revert Hresult. enter_redirect_engine Hconfig Hroot i18n.
    fold preferredLocale. rewrite Hhost, Hpreferred.
    unfold detectLocale_spec, first_defined.
    rewrite bool_decide_eq_false_2 by done. simpl.
    by rewrite String.eqb_refl.
Qed.

(** X12: on a host that resolves to a configured domain entry the
    locale-prefix redirect never fires: every redirect is the one to the
    domain that owns the preferred locale. *)
Theorem handleLocaleRedirect_on_configured_domain (config : NextConfig.t)
    (internalEvent : InternalEvent.t) (entry : DomainLocale.t)
    (redirect : InternalResult.t _) :
  detectDomainLocale config (InternalEvent.headers internalEvent !! "host") None
  = Normal (Some entry) →
  handleLocaleRedirect config internalEvent = Normal (Some redirect) →
  ∃ i18n locale preferredDomain,
    NextConfig.i18n config = Some i18n
    ∧ acceptLanguage (InternalEvent.headers internalEvent !! "accept-language")
                     (i18nConfig.locales i18n) = Some locale
    ∧ detectDomainLocale config None (Some locale) = Normal (Some preferredDomain)
    ∧ (DomainLocale.domain preferredDomain ≠ DomainLocale.domain entry
       ∨ locale ≠ DomainLocale.defaultLocale preferredDomain)
    ∧ redirect
      = redirect_to
          ((if truthy (DomainLocale.http preferredDomain) then "http" else "https")
           +:+ "://" +:+ DomainLocale.domain preferredDomain +:+ "/"
           +:+ (if bool_decide (locale = DomainLocale.defaultLocale preferredDomain)
                then "" else locale)).
Proof. apply on_domain_redirect_inv. Qed.

(** X13: a visitor already on the domain that owns their preferred locale
    as its default, or whose preferred locale no domain owns, is not
    redirected from a configured domain. *)
Theorem handleLocaleRedirect_home_domain (config : NextConfig.t)
    (internalEvent : InternalEvent.t) (i18n : i18nConfig.t) (entry : DomainLocale.t) :
  let preferredLocale :=
    acceptLanguage (InternalEvent.headers internalEvent !! "accept-language")
                   (i18nConfig.locales i18n) in
  NextConfig.i18n config = Some i18n →
  detectDomainLocale config (InternalEvent.headers internalEvent !! "host") None
  = Normal (Some entry) →
  detectDomainLocale config None preferredLocale = Normal None
  ∨ (∃ preferredDomain,
       detectDomainLocale config None preferredLocale = Normal (Some preferredDomain)
       ∧ DomainLocale.domain preferredDomain = DomainLocale.domain entry
       ∧ preferredLocale = Some (DomainLocale.defaultLocale preferredDomain)) →
  handleLocaleRedirect config internalEvent = Normal None.
Proof.
  intros preferredLocale Hconfig Hentry Hhome.
  destruct (handleLocaleRedirect_normal config internalEvent) as [[redirect|] Hresult];
    [exfalso|done].
  destruct (on_domain_redirect_inv _ _ _ _ Hentry Hresult)
    as (i18n' & locale & owner & Hconfig' & Hlocale & Howner & Hdiffer & _).
  assert (i18n' = i18n) as -> by congruence.
  fold preferredLocale in Hlocale. rewrite Hlocale in Hhome.
  destruct Hhome as [Hnone|(preferredDomain & Hpreferred & Hdomain & Hdefault)];
    [congruence|].
  assert (owner = preferredDomain) as -> by congruence.
  destruct Hdiffer as [?|?]; congruence.
Qed.

(** X14: on a host that resolves to no configured domain, and past the
    entry guard, the decision rests on the cookie locale, else the preferred
    locale, else the default locale: the request is redirected to the current
    URL prefixed with that locale exactly when it differs, up to letter
    case, from the default locale. *)
Theorem handleLocaleRedirect_off_domain (config : NextConfig.t)
    (internalEvent : InternalEvent.t) (i18n : i18nConfig.t) :
  NextConfig.i18n config = Some i18n →
  i18nConfig.localeDetection i18n ≠ Some false →
  InternalEvent.rawPath internalEvent = "/" →
  detectDomainLocale config (InternalEvent.headers internalEvent !! "host") None
  = Normal None →
  let detectedLocale :=
    first_defined
      [getLocaleFromCookie config (InternalEvent.cookies internalEvent);
       acceptLanguage (InternalEvent.headers internalEvent !! "accept-language")
                      (i18nConfig.locales i18n)]
      (i18nConfig.defaultLocale i18n) in
  detectLocale config internalEvent i18n = Normal detectedLocale
  ∧ handleLocaleRedirect config internalEvent
    = Normal (if String.eqb (toLowerCase detectedLocale)
                            (toLowerCase (i18nConfig.defaultLocale i18n))
              then None
              else Some (redirect_to
                           (constructNextUrl (InternalEvent.url internalEvent)
                                             ("/" +:+ detectedLocale)))).
Proof.
  intros Hconfig Hdetect Hroot Hhost detectedLocale.
  rewrite detectDomainLocale_normal in Hhost. injection Hhost as Hhost.
  assert (detectLocale_spec i18n None
            (getLocaleFromCookie config (InternalEvent.cookies internalEvent))
            (acceptLanguage (InternalEvent.headers internalEvent !! "accept-language")
                            (i18nConfig.locales i18n))
          = detectedLocale) as Hspec.
  { unfold detectLocale_spec. by rewrite bool_decide_eq_false_2. }
  split.
  - by rewrite detectLocale_normal, Hhost, Hspec.
  - enter_redirect_engine Hconfig Hroot i18n. rewrite Hhost, Hspec. simpl.
    by destruct (String.eqb _ _).
Qed.

(** X15: when the empty string is not a configured locale, a path that
    [isLocalizedPath] recognises is never redirected. *)
Theorem localized_path_is_not_redirected (config : NextConfig.t)
    (internalEvent : InternalEvent.t) (i18n : i18nConfig.t) :
  NextConfig.i18n config = Some i18n →
  "" ∉ i18nConfig.locales i18n →
  isLocalizedPath config (InternalEvent.rawPath internalEvent) = Normal true →
  handleLocaleRedirect config internalEvent = Normal None.
Proof.
  intros Hconfig Hempty Hlocalized.
  unfold handleLocaleRedirect. rewrite Hconfig.
  destruct (String.eqb_spec (InternalEvent.rawPath internalEvent) "/") as [Hroot|_];
    [exfalso|by destruct (i18nConfig.localeDetection i18n) as [[|]|]].
  rewrite Hroot, (isLocalizedPath_configured _ _ _ Hconfig) in Hlocalized.
  simpl in Hlocalized. injection Hlocalized as Hlocalized.
  by apply includes_elem_of in Hlocalized.
Qed.

(** X16: off every configured domain, and with the empty string not a
    configured locale, a redirect and the internal rewrite agree: the
    locale the redirect puts after the current URL is the one [localizePath]
    puts in front of the path. *)
Theorem redirect_and_rewrite_agree (config : NextConfig.t)
    (internalEvent : InternalEvent.t) (i18n : i18nConfig.t)
    (redirect : InternalResult.t _) :
  NextConfig.i18n config = Some i18n →
  "" ∉ i18nConfig.locales i18n →
  detectDomainLocale config (InternalEvent.headers internalEvent !! "host") None
  = Normal None →
  handleLocaleRedirect config internalEvent = Normal (Some redirect) →
  ∃ locale,
    localizePath config internalEvent = Normal ("/" +:+ locale +:+ "/")
    ∧ redirect
      = redirect_to (constructNextUrl (InternalEvent.url internalEvent)
                                      ("/" +:+ locale)).
Proof.
  intros Hconfig Hempty Hhost Hresult.
  destruct (handleLocaleRedirect_inv _ _ _ Hresult)
    as (i18n' & Hconfig' & _ & Hroot & Hbranch).
  assert (i18n' = i18n) as -> by congruence.
  rewrite detectDomainLocale_normal in Hhost. injection Hhost as Hhost.
  destruct Hbranch as [(? & ? & Hdomain & _)|(locale & Hlocale & ->)]; [congruence|].
  exists locale. split; [|done].
  destruct (localizePath_configured config i18n internalEvent "" Hconfig)
    as (locale' & Hlocale' & ->); [by rewrite Hroot|].
  assert (locale' = locale) as -> by congruence.
  rewrite Hroot. simpl.
  destruct (includes (i18nConfig.locales i18n) "") eqn:Hincludes; [|done].
  by apply includes_elem_of in Hincludes.
Qed.

End DomainRouting.

Lemma handleLocaleRedirect_on_configured_domain_witness :
  ∃ i18n locale preferredDomain,
    NextConfig.i18n (Sample.config Sample.i18n_ab) = Some i18n
    ∧ acceptLanguage (Collaborators := Sample.collaborators)
        (InternalEvent.headers
           (Sample.request "https://a.com/" "/" (Some "a.com") (Some "fr") (Some "en"))
         !! "accept-language")
        (i18nConfig.locales i18n) = Some locale
    ∧ detectDomainLocale (Sample.config Sample.i18n_ab) None (Some locale)
      = Normal (Some preferredDomain)
    ∧ (DomainLocale.domain preferredDomain ≠ DomainLocale.domain Sample.domain_a
       ∨ locale ≠ DomainLocale.defaultLocale preferredDomain)
    ∧ redirect_to (H := Sample.collaborators) "https://b.com/"
      = redirect_to
          ((if truthy (DomainLocale.http preferredDomain) then "http" else "https")
           +:+ "://" +:+ DomainLocale.domain preferredDomain +:+ "/"
           +:+ (if bool_decide (locale = DomainLocale.defaultLocale preferredDomain)
                then "" else locale)).
Proof.
  apply (handleLocaleRedirect_on_configured_domain (H := Sample.collaborators)
           (Sample.config Sample.i18n_ab)
           (Sample.request "https://a.com/" "/" (Some "a.com") (Some "fr") (Some "en"))
           Sample.domain_a
           (redirect_to (H := Sample.collaborators) "https://b.com/")).
  - vm_compute. reflexivity.
  - vm_compute. reflexivity.
Defined.

Lemma handleLocaleRedirect_home_domain_witness :
  handleLocaleRedirect (H := Sample.collaborators) (Sample.config Sample.i18n_ab)
    (Sample.request "https://b.com/" "/" (Some "b.com") (Some "fr") None)
  = Normal None.
Proof.
  apply (handleLocaleRedirect_home_domain (H := Sample.collaborators)
           (Sample.config Sample.i18n_ab)
           (Sample.request "https://b.com/" "/" (Some "b.com") (Some "fr") None)
           Sample.i18n_ab Sample.domain_b eq_refl).
  - vm_compute. reflexivity.
  - right. exists Sample.domain_b. split_and!; vm_compute; reflexivity.
Defined.

Lemma handleLocaleRedirect_off_domain_witness :
  detectLocale (H := Sample.collaborators) (Sample.config Sample.i18n_fr)
    (Sample.request "https://en.example.com" "/" (Some "en.example.com")
                    (Some "fr") None)
    Sample.i18n_fr
  = Normal "fr"
  ∧ handleLocaleRedirect (H := Sample.collaborators) (Sample.config Sample.i18n_fr)
      (Sample.request "https://en.example.com" "/" (Some "en.example.com")
                      (Some "fr") None)
    = Normal (Some (redirect_to (H := Sample.collaborators)
                      "https://en.example.com/fr")).
Proof.
  apply (handleLocaleRedirect_off_domain (H := Sample.collaborators)
           (Sample.config Sample.i18n_fr)
           (Sample.request "https://en.example.com" "/" (Some "en.example.com")
                           (Some "fr") None)
           Sample.i18n_fr eq_refl).
  - discriminate.
  - reflexivity.
  - vm_compute. reflexivity.
Defined.

Lemma localized_path_is_not_redirected_witness :
  handleLocaleRedirect (H := Sample.collaborators) (Sample.config Sample.i18n_plain)
    (Sample.request "https://example.com/fr" "/fr" (Some "example.com") (Some "en") None)
  = Normal None.
Proof.
  apply (localized_path_is_not_redirected (H := Sample.collaborators)
           (Sample.config Sample.i18n_plain)
           (Sample.request "https://example.com/fr" "/fr" (Some "example.com")
                           (Some "en") None)
           Sample.i18n_plain eq_refl).
  - intros Hin%list_elem_of_In. simpl in Hin. by destruct Hin as [?|[?|[]]].
  - vm_compute. reflexivity.
Defined.

Lemma redirect_and_rewrite_agree_witness :
  ∃ locale,
    localizePath (H := Sample.collaborators) (Sample.config Sample.i18n_fr)
      (Sample.request "https://en.example.com" "/" (Some "en.example.com")
                      (Some "fr") None)
    = Normal ("/" +:+ locale +:+ "/")
    ∧ redirect_to (H := Sample.collaborators) "https://en.example.com/fr"
      = redirect_to (constructNextUrl (Collaborators := Sample.collaborators)
                       "https://en.example.com" ("/" +:+ locale)).
Proof.
  apply (redirect_and_rewrite_agree (H := Sample.collaborators)
           (Sample.config Sample.i18n_fr)
           (Sample.request "https://en.example.com" "/" (Some "en.example.com")
                           (Some "fr") None)
           Sample.i18n_fr
           (redirect_to (H := Sample.collaborators) "https://en.example.com/fr")
           eq_refl).
  - intros Hin%list_elem_of_In. simpl in Hin. by destruct Hin as [?|[?|[]]].
  - vm_compute. reflexivity.
  - vm_compute. reflexivity.
Defined.

(** * Faults: what the functions do when a collaborator throws *)

Section Faults.
Context `{Collaborators} `{CollaboratorFaults}.

(** [detectLocale] throws what the matcher throws, unless it returned
    before calling it; otherwise it returns what it computes from the
    matcher's answer. *)
Lemma faulting_detectLocale_cases (config : NextConfig.t)
    (internalEvent : InternalEvent.t) (i18n : i18nConfig.t) :
  Faulting.detectLocale config internalEvent i18n
  = match i18nConfig.localeDetection i18n,
          acceptLanguage_fault (InternalEvent.headers internalEvent !! "accept-language")
                               (i18nConfig.locales i18n) with
    | Some false, _ => detectLocale config internalEvent i18n
    | _, None => detectLocale config internalEvent i18n
    | _, Some e => Throw e
    end.
Proof.
  unfold Faulting.detectLocale, detectLocale, Faulting.call_acceptLanguage.
  rewrite detectDomainLocale_normal. simpl.
  by destruct (acceptLanguage_fault _ _);
    destruct (i18nConfig.localeDetection i18n) as [[|]|].
Qed.

(** Whenever the functions return, they return what is computed from the
    collaborators' answers. *)
Lemma faulting_detectLocale_agrees (config : NextConfig.t)
    (internalEvent : InternalEvent.t) (i18n : i18nConfig.t) (locale : string) :
  Faulting.detectLocale config internalEvent i18n = Normal locale →
  detectLocale config internalEvent i18n = Normal locale.
Proof.
  rewrite faulting_detectLocale_cases.
  by destruct (acceptLanguage_fault _ _);
    destruct (i18nConfig.localeDetection i18n) as [[|]|].
Qed.

Lemma faulting_localizePath_agrees (config : NextConfig.t)
    (internalEvent : InternalEvent.t) (path : string) :
  Faulting.localizePath config internalEvent = Normal path →
  localizePath config internalEvent = Normal path.
Proof.
  unfold Faulting.localizePath, localizePath.
  destruct (NextConfig.i18n config) as [i18n|]; [|done].
  destruct (isLocalizedPath config _) as [[|]|]; simpl; try done.
  destruct (Faulting.detectLocale config internalEvent i18n) as [locale|] eqn:Hlocale;
    simpl; [|done].
  by rewrite (faulting_detectLocale_agrees _ _ _ _ Hlocale).
Qed.

Lemma faulting_handleLocaleRedirect_agrees (config : NextConfig.t)
    (internalEvent : InternalEvent.t) (result : option (InternalResult.t _)) :
  Faulting.handleLocaleRedirect config internalEvent = Normal result →
  handleLocaleRedirect config internalEvent = Normal result.
Proof.
  unfold Faulting.handleLocaleRedirect, handleLocaleRedirect.
  destruct (NextConfig.i18n config) as [i18n|]; [|done].
  rewrite faulting_detectLocale_cases.
  unfold Faulting.call_acceptLanguage, Faulting.call_constructNextUrl.
  destruct (i18nConfig.localeDetection i18n) as [[|]|]; try done;
    (destruct (negb (String.eqb _ "/")); [done|]);
    (destruct (acceptLanguage_fault _ _); simpl; [done|]);
    rewrite detectLocale_normal, !detectDomainLocale_normal; simpl;
    (destruct (detectDomainLocale_spec id config _ None) as [domainLocale|];
     [destruct (detectDomainLocale_spec id config None _) as [preferredDomain|];
      [destruct (_ || _); [done|]|]|]);
    (destruct (negb _); [|done]);
    by destruct (constructNextUrl_fault _ _).
Qed.




(** X11: on a host that resolves to a configured domain entry,
    [detectLocale] returns that entry's default locale, whatever the cookies
    and the Language Matcher's answer are, provided [localeDetection ===
    false] or the matcher returns; when [localeDetection] is not [false]
    and the matcher throws on the [Accept-Language] value, [detectLocale]
    throws that error, although the domain alone would decide the result. *)
Theorem detectLocale_on_configured_domain_or_matcher_error (config : NextConfig.t)
    (internalEvent : InternalEvent.t) (i18n : i18nConfig.t) (entry : DomainLocale.t) :
  let fault :=
    acceptLanguage_fault (InternalEvent.headers internalEvent !! "accept-language")
                         (i18nConfig.locales i18n) in
  detectDomainLocale config (InternalEvent.headers internalEvent !! "host") None
  = Normal (Some entry) →
  (i18nConfig.localeDetection i18n = Some false ∨ fault = None →
   Faulting.detectLocale config internalEvent i18n
   = Normal (DomainLocale.defaultLocale entry))
  ∧ (∀ e, i18nConfig.localeDetection i18n ≠ Some false → fault = Some e →
          Faulting.detectLocale config internalEvent i18n = Throw e).
Proof.
  intros fault Hentry. rewrite detectDomainLocale_normal in Hentry.
  injection Hentry as Hentry.
  rewrite faulting_detectLocale_cases. fold fault.
  assert (detectLocale config internalEvent i18n
          = Normal (DomainLocale.defaultLocale entry)) as Hdomain.
  { rewrite detectLocale_normal, Hentry. unfold detectLocale_spec.
    by case_bool_decide. }
  split.
  - intros [-> | ->]; [done|]. by destruct (i18nConfig.localeDetection i18n) as [[|]|].
  - intros e Hdetect ->. by destruct (i18nConfig.localeDetection i18n) as [[|]|].
Qed.

End Faults.


Lemma detectLocale_on_configured_domain_or_matcher_error_witness :
  Faulting.detectLocale (H := Sample.collaborators) (H0 := SampleFaults.faults)
    (Sample.config Sample.i18n_ab)
    (Sample.request "https://b.com/" "/" (Some "b.com") (Some "en") (Some "en"))
    Sample.i18n_ab
  = Normal "fr"
  ∧ Faulting.detectLocale (H := Sample.collaborators) (H0 := SampleFaults.faults)
      (Sample.config Sample.i18n_ab)
      (Sample.request "https://b.com/" "/" (Some "b.com") (Some "fr;q=0.9;x=1") None)
      Sample.i18n_ab
    = Throw (Error "Invalid accept-language header").
Proof.
  split.
  - apply (proj1 (detectLocale_on_configured_domain_or_matcher_error
                    (H := Sample.collaborators) (H0 := SampleFaults.faults)
                    (Sample.config Sample.i18n_ab)
                    (Sample.request "https://b.com/" "/" (Some "b.com") (Some "en")
                                    (Some "en"))
                    Sample.i18n_ab Sample.domain_b ltac:(vm_compute; reflexivity))).
    right. vm_compute. reflexivity.
  - apply (proj2 (detectLocale_on_configured_domain_or_matcher_error
                    (H := Sample.collaborators) (H0 := SampleFaults.faults)
                    (Sample.config Sample.i18n_ab)
                    (Sample.request "https://b.com/" "/" (Some "b.com")
                                    (Some "fr;q=0.9;x=1") None)
                    Sample.i18n_ab Sample.domain_b ltac:(vm_compute; reflexivity)));
      [discriminate|]. vm_compute. reflexivity.
Defined.
